(** * PyTiddlyWiki: extraction of tiddlers from an exported wiki document

    A shallow embedding of [Tiddler.py] (class [Tiddler]): the two regular
    expressions [RE_TIDDLER] and [RE_OPTION], run by a backtracking matcher
    that follows Python's [re] module, the constructor [__init__], the
    generator [finditer] and the factory [parse_from_string], and of the
    methods [__str__], [export_content], [export] and [export_to_file].
    The helper [string_to_date] that the class inherits from [Tw5Mixin]
    is not part of the file: the development takes it as a parameter.

    Text is modelled with [string]; a character is one of the 256 code points
    U+0000..U+00FF.  Python objects are modelled by their instance dictionary,
    a [gmap string pyval]. *)

From Stdlib Require Import Ascii String NArith Sorted.
From stdpp Require Import gmap strings list fin_maps.

Local Open Scope string_scope.

(** ** Python values and exceptions *)

(** The exceptions the modelled code can raise. *)
Inductive exn : Type :=
| KeyError
| ValueError
| TypeError.

(** A computation that returns or raises. *)
Inductive result (A : Type) : Type :=
| Ok (a : A)
| Err (e : exn).

Arguments Ok {A} a.
Arguments Err {A} e.

#[global] Instance result_bind : MBind result :=
  fun A B (f : A -> result B) (r : result A) =>
    match r with
    | Ok a => f a
    | Err e => Err e
    end.

(** [try: body except KeyError: handler]. *)
Definition try_except_KeyError {A : Type} (body handler : result A) : result A :=
  match body with
  | Err KeyError => handler
  | r => r
  end.

(** [datetime.datetime], with the fields the timestamp format names. *)
Record datetime : Type := {
  year : nat;
  month : nat;
  day : nat;
  hour : nat;
  minute : nat;
  second : nat;
  millisecond : nat
}.

(** The values stored in [attr] and in an instance's [__dict__]. *)
Inductive pyval : Type :=
| PNone
| PStr (s : string)
| PList (l : list string)
| PDate (d : datetime).

(** A Python [dict] with [str] keys. *)
Abbreviation dict := (gmap string pyval).

(** [d[k]]: raises [KeyError] when the key is missing. *)
Definition getitem (d : dict) (k : string) : result pyval :=
  match d !! k with
  | Some v => Ok v
  | None => Err KeyError
  end.

(** A [str] method called on a value that is not a [str] is a [TypeError]. *)
Definition as_str (v : pyval) : result string :=
  match v with
  | PStr s => Ok s
  | _ => Err TypeError
  end.

(** ** Strings *)

Definition nl : string := String "010" EmptyString.

(** The double quote. *)
Definition dq : string := String (ascii_of_nat 34) EmptyString.

(** [strip_prefix l s] is [Some r] when [s = l ++ r]. *)
Fixpoint strip_prefix (l s : string) : option string :=
  match l with
  | EmptyString => Some s
  | String a l' =>
      match s with
      | String b s' => if Ascii.eqb a b then strip_prefix l' s' else None
      | EmptyString => None
      end
  end.

(** [str.startswith]. *)
Definition startswith (s l : string) : bool :=
  match strip_prefix l s with
  | Some _ => true
  | None => false
  end.

(** [find_first l s] splits [s] at the leftmost occurrence of [l]:
    [Some (a, r)] with [s = a ++ l ++ r]. *)
Fixpoint find_first (l s : string) : option (string * string) :=
  match strip_prefix l s with
  | Some r => Some (EmptyString, r)
  | None =>
      match s with
      | String c s' =>
          match find_first l s' with
          | Some (a, r) => Some (String c a, r)
          | None => None
          end
      | EmptyString => None
      end
  end.

(** Lookup in an association list keyed by names. *)
Fixpoint assoc {A : Type} (k : string) (l : list (string * A)) : option A :=
  match l with
  | [] => None
  | (k', v) :: l' => if String.eqb k k' then Some v else assoc k l'
  end.

(** ** The regular-expression matcher ([re]) *)

Module Re.

(** Character classes of the two patterns, as [re] matches them on [str]
    (Unicode) patterns, restricted to the code points below 256. *)
Inductive charset : Type :=
| AnyChar      (* [\w\W] *)
| WordChar     (* \w *)
| SpaceChar.   (* \s *)

Definition between (lo hi n : N) : bool := ((lo <=? n) && (n <=? hi))%N.

(** [\s]: [str.isspace]. *)
Definition is_space (c : ascii) : bool :=
  let n := N_of_ascii c in
  between 9 13 n || between 28 32 n || (n =? 133)%N || (n =? 160)%N.

(** [\w]: [str.isalnum] or the underscore. *)
Definition is_word (c : ascii) : bool :=
  let n := N_of_ascii c in
  between 48 57 n || between 65 90 n || (n =? 95)%N || between 97 122 n
  || (n =? 170)%N || between 178 179 n || (n =? 181)%N
  || between 185 186 n || between 188 190 n
  || between 192 214 n || between 216 246 n || between 248 255 n.

Definition in_charset (cs : charset) (c : ascii) : bool :=
  match cs with
  | AnyChar => true
  | WordChar => is_word c
  | SpaceChar => is_space c
  end.

Inductive quantifier : Type :=
| Greedy
| Lazy.

(** A compiled pattern is a sequence of nodes; a named group
    [(?P<name>...)] is the pair of marks around its body. *)
Inductive node : Type :=
| Str (s : string)
| Star (cs : charset) (q : quantifier)
| Plus (cs : charset) (q : quantifier)
| GroupOpen (name : string)
| GroupClose (name : string).

Definition pattern : Type := list node.

(** Marks set while matching: where each open group started, and the span
    of each closed group. *)
Record marks : Type := {
  opened : list (string * nat);
  spans : list (string * (nat * nat))
}.

Definition no_marks : marks := {| opened := []; spans := [] |}.

Definition open_group (name : string) (pos : nat) (mk : marks) : marks :=
  {| opened := (name, pos) :: opened mk; spans := spans mk |}.

Definition close_group (name : string) (pos : nat) (mk : marks) : marks :=
  {| opened := opened mk;
     spans := (name, (default pos (assoc name (opened mk)), pos)) :: spans mk |}.

(** [cs*?] before continuation [k]: try [k] first, take one more character
    only when [k] fails. *)
Fixpoint lazy_star {R : Type} (ok : ascii -> bool)
    (k : string -> nat -> option R) (s : string) (pos : nat) : option R :=
  match k s pos with
  | Some r => Some r
  | None =>
      match s with
      | String c s' => if ok c then lazy_star ok k s' (S pos) else None
      | EmptyString => None
      end
  end.

(** [cs*] before continuation [k]: take as many characters as possible,
    give them back one at a time while [k] fails. *)
Fixpoint greedy_star {R : Type} (ok : ascii -> bool)
    (k : string -> nat -> option R) (s : string) (pos : nat) : option R :=
  match s with
  | String c s' =>
      if ok c then
        match greedy_star ok k s' (S pos) with
        | Some r => Some r
        | None => k s pos
        end
      else k s pos
  | EmptyString => k s pos
  end.

Definition star {R : Type} (q : quantifier) (ok : ascii -> bool)
    (k : string -> nat -> option R) (s : string) (pos : nat) : option R :=
  match q with
  | Lazy => lazy_star ok k s pos
  | Greedy => greedy_star ok k s pos
  end.

(** [exec p mk s pos]: match [p] against [s], the rest of the subject from
    offset [pos] on.  Returns the end offset and the marks. *)
Fixpoint exec (p : pattern) (mk : marks) (s : string) (pos : nat)
    : option (nat * marks) :=
  match p with
  | [] => Some (pos, mk)
  | Str l :: p' =>
      match strip_prefix l s with
      | Some s' => exec p' mk s' (pos + String.length l)
      | None => None
      end
  | Star cs q :: p' => star q (in_charset cs) (exec p' mk) s pos
  | Plus cs q :: p' =>
      match s with
      | String c s' =>
          if in_charset cs c then star q (in_charset cs) (exec p' mk) s' (S pos)
          else None
      | EmptyString => None
      end
  | GroupOpen name :: p' => exec p' (open_group name pos mk) s pos
  | GroupClose name :: p' => exec p' (close_group name pos mk) s pos
  end.

(** A match object: its span and the text of its named groups. *)
Record Match : Type := {
  m_start : nat;
  m_end : nat;
  m_groups : list (string * string)
}.

Definition slice (subject : string) (span : nat * nat) : string :=
  substring (fst span) (snd span - fst span) subject.

Definition mk_match (subject : string) (start : nat) (r : nat * marks) : Match :=
  {| m_start := start;
     m_end := fst r;
     m_groups := map (fun g => (fst g, slice subject (snd g))) (spans (snd r)) |}.

(** [match.group(name)]; every group of the two patterns takes part in
    every match. *)
Definition group (m : Match) (name : string) : string :=
  default EmptyString (assoc name (m_groups m)).

(** [scan p subject s pos skip] walks the rest [s] of [subject] from offset
    [pos] on.  While [skip] is positive the offset lies inside the previous
    match and is passed over; otherwise the pattern is tried here, and on
    failure one character further.  After an empty match the scan moves on
    by one character. *)
Fixpoint scan (p : pattern) (subject s : string) (pos skip : nat) : list Match :=
  let here :=
    match skip with
    | O => exec p no_marks s pos
    | S _ => None
    end in
  let found :=
    match here with
    | Some r => [mk_match subject pos r]
    | None => []
    end in
  let skip' :=
    match here with
    | Some r => fst r - pos - 1
    | None => skip - 1
    end in
  found ++
  match s with
  | String _ s' => scan p subject s' (S pos) skip'
  | EmptyString => []
  end.

(** [re.finditer(p, subject)]: the non-overlapping matches, left to right. *)
Definition finditer (p : pattern) (subject : string) : list Match :=
  scan p subject subject 0 0.

End Re.

(** ** The helpers inherited from [Tw5Mixin] *)

Module Tw5Mixin.

Definition digit_val (c : ascii) : option nat :=
  let n := nat_of_ascii c in
  if ((48 <=? n) && (n <=? 57))%nat then Some (n - 48) else None.

Fixpoint digits (s : string) : option (list nat) :=
  match s with
  | EmptyString => Some []
  | String c s' =>
      match digit_val c, digits s' with
      | Some d, Some ds => Some (d :: ds)
      | _, _ => None
      end
  end.

Definition number (ds : list nat) : nat :=
  fold_left (fun acc d => 10 * acc + d) ds 0.

(** [Tw5Mixin.string_to_date] is not part of [Tiddler.py]: the class
    inherits it, and [finditer] calls it through [cls].  What it returns
    and what it raises is a parameter of the development: the properties
    of [Tiddler] hold for every helper. *)
Class Helpers : Type := {
  string_to_date : string -> result datetime
}.

(** Modelled from the spec: the helper parses a fixed-width numeric
    timestamp YYYYMMDDhhmmssSSS (year, month, day, hour, minute, second
    and millisecond fields) into a timestamp value; any other text is a
    hard parse error.  The spec does not name the exception of that
    error: it is the argument [e].  The spec states no calendar range for
    the fields, so none is checked. *)
Definition parse_timestamp (e : exn) (s : string) : result datetime :=
  match digits s with
  | Some ds =>
      if (length ds =? 17)%nat then
        Ok {| year := number (take 4 ds);
              month := number (take 2 (drop 4 ds));
              day := number (take 2 (drop 6 ds));
              hour := number (take 2 (drop 8 ds));
              minute := number (take 2 (drop 10 ds));
              second := number (take 2 (drop 12 ds));
              millisecond := number (take 3 (drop 14 ds)) |}
      else Err e
  | None => Err e
  end.

(** The helper of the examples: the timestamp parser of the spec, with
    [ValueError] as its parse error. *)
#[global] Instance example_helpers : Helpers :=
  {| string_to_date := parse_timestamp ValueError |}.

(** The same parser with [KeyError] as its parse error, the one exception
    that [finditer] catches. *)
Definition keyerror_helpers : Helpers :=
  {| string_to_date := parse_timestamp KeyError |}.

(** The scanner of a tag expression is between tags, inside a bare word or
    inside a double-bracketed phrase. *)
Inductive tag_state : Type :=
| Between
| InWord (acc : string)
| InPhrase (acc : string).

Fixpoint scan_tags (st : tag_state) (s : string) : list string :=
  match st, s with
  | Between, EmptyString => []
  | InWord acc, EmptyString => [acc]
  | InPhrase acc, EmptyString => [acc]
  | Between, String "[" (String "[" s') => scan_tags (InPhrase EmptyString) s'
  | Between, String c s' =>
      if Re.is_space c then scan_tags Between s'
      else scan_tags (InWord (String c EmptyString)) s'
  | InWord acc, String c s' =>
      if Re.is_space c then acc :: scan_tags Between s'
      else scan_tags (InWord (acc ++ String c EmptyString)) s'
  | InPhrase acc, String "]" (String "]" s') => acc :: scan_tags Between s'
  | InPhrase acc, String c s' => scan_tags (InPhrase (acc ++ String c EmptyString)) s'
  end.

(** Modelled from the spec: [Tw5Mixin.get_tag_list] is not part of
    [Tiddler.py].  A tag expression is a sequence of tags, each a bare word
    (no internal spaces) or a double-bracketed phrase [[multi word tag]];
    the result is the ordered sequence of the tags, in source order.  The
    spec does not say what an unterminated phrase is; here it runs to the
    end of the expression. *)
Definition get_tag_list (s : string) : list string :=
  scan_tags Between s.

End Tw5Mixin.

(** ** Class [Tiddler] *)

Module Tiddler.

Import Re.

(** [RE_TIDDLER]:
    <div(?P<options>[\w\W]*?)>\n<pre>(?P<content>[\w\W]*?)</pre>\n</div> *)
Definition RE_TIDDLER : pattern :=
  [ Str "<div";
    GroupOpen "options"; Star AnyChar Lazy; GroupClose "options";
    Str (">" ++ nl);
    Str "<pre>";
    GroupOpen "content"; Star AnyChar Lazy; GroupClose "content";
    Str ("</pre>" ++ nl);
    Str "</div>" ].

(** [RE_OPTION]: \s+(?P<key>\w+?)="(?P<value>[\w\W]*?)" *)
Definition RE_OPTION : pattern :=
  [ Plus SpaceChar Greedy;
    GroupOpen "key"; Plus WordChar Lazy; GroupClose "key";
    Str ("=" ++ dq);
    GroupOpen "value"; Star AnyChar Lazy; GroupClose "value";
    Str dq ].

(** An instance is its [__dict__]. *)
Abbreviation Tiddler := (gmap string pyval).

(** [__init__(self, content, title=None, tags=None, created=None,
    modified=None, type='text/vnd.tiddlywiki', **kwargs)]. *)
Definition init (content title tags created modified type : pyval)
    (kwargs : dict) : Tiddler :=
  let self : dict := ∅ in
  let self := <["content" := content]> self in
  let self := <["title" := title]> self in
  let self := <["tags" := match tags with PNone => PList [] | _ => tags end]> self in
  let self := <["created" := created]> self in
  let self := <["modified" := modified]> self in
  let self := <["type_" := type]> self in
  kwargs ∪ self.

(** The names [__init__] binds itself; a keyword argument with one of the
    other names goes to [**kwargs]. *)
Definition keyword_params : list string :=
  ["title"; "tags"; "created"; "modified"; "type"].

(** [cls(content, **attr)]: [self] and [content] are bound positionally, so
    a keyword of that name is a [TypeError] (multiple values for the
    argument); a keyword parameter that [attr] lacks takes its default. *)
Definition new (content : pyval) (attr : dict) : result Tiddler :=
  match attr !! "self", attr !! "content" with
  | None, None =>
      Ok (init content
            (default PNone (attr !! "title"))
            (default PNone (attr !! "tags"))
            (default PNone (attr !! "created"))
            (default PNone (attr !! "modified"))
            (default (PStr "text/vnd.tiddlywiki") (attr !! "type"))
            (foldr delete attr keyword_params))
  | _, _ => Err TypeError
  end.

(** The inner loop of [finditer]: [attr[key] = value] for every match of
    [RE_OPTION] in [options], in order. *)
Definition tokenize (options : string) : gmap string string :=
  fold_left (fun attr m => <[group m "key" := group m "value"]> attr)
            (Re.finditer RE_OPTION options) ∅.

(** What one turn of the outer loop of [finditer] does. *)
Inductive outcome : Type :=
| Yielded (t : Tiddler)
| Skipped
| Raised (e : exn).

Definition normalize_tags (attr : dict) : result dict :=
  try_except_KeyError
    (v ← getitem attr "tags";
     s ← as_str v;
     Ok (<["tags" := PList (Tw5Mixin.get_tag_list s)]> attr))
    (Ok attr).

Definition normalize_modified `{!Tw5Mixin.Helpers} (attr : dict)
    : result dict :=
  try_except_KeyError
    (v ← getitem attr "modified";
     s ← as_str v;
     d ← Tw5Mixin.string_to_date s;
     Ok (<["modified" := PDate d]> attr))
    (Ok attr).

Definition normalize_created `{!Tw5Mixin.Helpers} (attr : dict)
    : result dict :=
  v ← getitem attr "created";
  s ← as_str v;
  d ← Tw5Mixin.string_to_date s;
  Ok (<["created" := PDate d]> attr).

Definition system_title (attr : dict) : result bool :=
  v ← getitem attr "title";
  s ← as_str v;
  Ok (startswith s "$:/").

(** The body of [for match in re.finditer(cls.RE_TIDDLER, buffer)]. *)
Definition loop_body `{!Tw5Mixin.Helpers} (m : Match) : outcome :=
  let options := group m "options" in
  let content := group m "content" in
  let attr : dict := PStr <$> tokenize options in
  match normalize_tags attr with
  | Err e => Raised e
  | Ok attr =>
  match normalize_modified attr with
  | Err e => Raised e
  | Ok attr =>
  match normalize_created attr with
  | Err KeyError => Skipped      (* continue *)
  | Err e => Raised e
  | Ok attr =>
  match system_title attr with
  | Err KeyError => Skipped      (* continue *)
  | Err e => Raised e
  | Ok true => Skipped           (* continue *)
  | Ok false =>
  match new (PStr content) attr with
  | Err e => Raised e
  | Ok t => Yielded t
  end end end end end.

(** A generator, unrolled: the values it yields, ended by [StopIteration]
    or by the exception that escapes it. *)
Inductive generator : Type :=
| Yield (t : Tiddler) (rest : generator)
| StopIteration
| Raise (e : exn).

Fixpoint run `{!Tw5Mixin.Helpers} (ms : list Match) : generator :=
  match ms with
  | [] => StopIteration
  | m :: ms' =>
      match loop_body m with
      | Yielded t => Yield t (run ms')
      | Skipped => run ms'
      | Raised e => Raise e
      end
  end.

(** [Tiddler.finditer(buffer)]. *)
Definition finditer `{!Tw5Mixin.Helpers} (buffer : string) : generator :=
  run (Re.finditer RE_TIDDLER buffer).

(** [Tiddler.parse_from_string(buffer)]: [next] of the generator, [None]
    on [StopIteration]. *)
Definition parse_from_string `{!Tw5Mixin.Helpers} (buffer : string)
    : result (option Tiddler) :=
  match finditer buffer with
  | Yield t _ => Ok (Some t)
  | StopIteration => Ok None
  | Raise e => Err e
  end.

(** The text of one attribute of an opening tag: a space, the key, the
    equals sign and the value between double quotes. *)
Definition attribute (key value : string) : string :=
  " " ++ key ++ "=" ++ dq ++ value ++ dq.

(** The text of a sequence of attributes. *)
Definition attributes_text (kvs : list (string * string)) : string :=
  foldr (fun kv s => attribute (fst kv) (snd kv) ++ s) EmptyString kvs.

Fixpoint all_chars (ok : ascii -> bool) (s : string) : bool :=
  match s with
  | EmptyString => true
  | String c s' => ok c && all_chars ok s'
  end.

(** A key is a non-empty run of word characters; a value holds no double
    quote. *)
Definition is_key (k : string) : bool :=
  match k with
  | EmptyString => false
  | String _ _ => all_chars is_word k
  end.

Definition quote_free (v : string) : bool :=
  all_chars (fun c => negb (Ascii.eqb c (ascii_of_nat 34))) v.

Definition well_formed (kv : string * string) : bool :=
  is_key (fst kv) && quote_free (snd kv).

(** The marks of the match of an attribute that starts at offset [pos]. *)
Definition attribute_marks (pos : nat) (k v : string) : marks :=
  let a := pos + 1 in
  let b := a + String.length k in
  let a' := b + 2 in
  let b' := a' + String.length v in
  {| opened := [("value", a'); ("key", a)];
     spans := [("value", (a', b')); ("key", (a, b))] |}.

(** The match object of an attribute that starts at offset [pos]. *)
Definition attribute_match (pos : nat) (k v : string) : Match :=
  {| m_start := pos;
     m_end := pos + String.length (attribute k v);
     m_groups := [("value", v); ("key", k)] |}.

(** The key/value pairs [RE_OPTION] finds in an options string, in order. *)
Definition option_pairs (options : string) : list (string * string) :=
  map (fun m => (group m "key", group m "value"))
      (Re.finditer RE_OPTION options).

(** The value of the last pair with key [k]. *)
Fixpoint last_value (k : string) (l : list (string * string)) : option string :=
  match l with
  | [] => None
  | (k', v) :: l' =>
      match last_value k l' with
      | Some w => Some w
      | None => if String.eqb k k' then Some v else None
      end
  end.

(** The attributes of a matched block. *)
Definition attributes (m : Match) : gmap string string :=
  tokenize (group m "options").

(** A timestamp text is well-formed when [string_to_date] parses it. *)
Definition parses `{!Tw5Mixin.Helpers} (v : string) : bool :=
  match Tw5Mixin.string_to_date v with
  | Ok _ => true
  | Err _ => false
  end.

(** The inclusion rules, in the words of the specification: [created] is
    present and parses as a timestamp, [title] is present, and [title] does
    not begin with the system prefix. *)
Definition satisfies_inclusion `{!Tw5Mixin.Helpers}
    (a : gmap string string) : bool :=
  match a !! "created" with
  | Some v => parses v
  | None => false
  end
  && match a !! "title" with
     | Some t => negb (startswith t "$:/")
     | None => false
     end.

(** The dictionary [attr] after the three normalizations of the loop body,
    on a block on which none of them lets an exception through: a
    timestamp that the helper does not parse stays as it is. *)
Definition normalized `{!Tw5Mixin.Helpers} (a : gmap string string)
    : dict :=
  let attr : dict := PStr <$> a in
  let attr : dict :=
    match a !! "tags" with
    | Some v => <["tags" := PList (Tw5Mixin.get_tag_list v)]> attr
    | None => attr
    end in
  let attr : dict :=
    match Tw5Mixin.string_to_date <$> a !! "modified" with
    | Some (Ok d) => <["modified" := PDate d]> attr
    | _ => attr
    end in
  match Tw5Mixin.string_to_date <$> a !! "created" with
  | Some (Ok d) => <["created" := PDate d]> attr
  | _ => attr
  end.

(** The values a generator yields, in order. *)
Fixpoint yields (g : generator) : list Tiddler :=
  match g with
  | Yield t rest => t :: yields rest
  | _ => []
  end.

(** The exception that ends a generator, if one does. *)
Fixpoint escapes (g : generator) : option exn :=
  match g with
  | Yield _ rest => escapes rest
  | StopIteration => None
  | Raise e => Some e
  end.

(** The shape of a record block, as [RE_TIDDLER] reads it: the text after
    the opening marker, up to the leftmost [pre_open], is the options
    string; the text up to the leftmost [block_close] after that is the
    content. *)
Definition div_open : string := "<div".
Definition pre_open : string := ">" ++ nl ++ "<pre>".
Definition block_close : string := "</pre>" ++ nl ++ "</div>".

Definition split_block (s : string) : option (string * string * string) :=
  match strip_prefix div_open s with
  | None => None
  | Some s1 =>
      match find_first pre_open s1 with
      | None => None
      | Some (o, s2) =>
          match find_first block_close s2 with
          | None => None
          | Some (c, s3) => Some (o, c, s3)
          end
      end
  end.

(** The end offset and the marks of the match of a block that starts at
    offset [pos], with options string [o] and content [c]. *)
Definition block_end (pos : nat) (o c : string) : nat :=
  pos + 4 + String.length o + 7 + String.length c + 13.

Definition block_marks (pos : nat) (o c : string) : marks :=
  let a := pos + 4 in
  let b := a + String.length o in
  let a' := b + 7 in
  let b' := a' + String.length c in
  {| opened := [("content", a'); ("options", a)];
     spans := [("content", (a', b')); ("options", (a, b))] |}.

(** The match object of such a block. *)
Definition block_match (pos : nat) (o c : string) : Match :=
  {| m_start := pos;
     m_end := block_end pos o c;
     m_groups := [("content", c); ("options", o)] |}.

(** A record block: a text that [RE_TIDDLER] matches from its first to its
    last character. *)
Definition is_block (b : string) : bool :=
  match exec RE_TIDDLER no_marks b 0 with
  | Some (e, _) => (e =? String.length b)%nat
  | None => false
  end.

(** The blocks of the text [s] that starts at offset [pos] of the buffer,
    read left to right: at each offset a block is read if there is one
    and the reading goes on after it, otherwise one character further. *)
Inductive blocks_at : nat -> string -> list Match -> Prop :=
| blocks_end pos :
    blocks_at pos EmptyString []
| blocks_skip pos x s ms :
    split_block (String x s) = None ->
    blocks_at (S pos) s ms ->
    blocks_at pos (String x s) ms
| blocks_found pos s o c r ms :
    split_block s = Some (o, c, r) ->
    blocks_at (block_end pos o c) r ms ->
    blocks_at pos s (block_match pos o c :: ms).

(** The text of a block with the given options string and content. *)
Definition block_text (o c : string) : string :=
  div_open ++ o ++ pre_open ++ c ++ block_close.

End Tiddler.

(** ** Buffers used as examples *)

Module Examples.

Import Tiddler.

Definition created_ok : string := attribute "created" "20180108222550419".
Definition modified_ok : string := attribute "modified" "20180111174922056".

(** The tiddler of the module's own demonstration, with a shorter body. *)
Definition sample : string :=
  block_text
    (created_ok ++ modified_ok
     ++ attribute "tags" "[[multi word tag]] tag2 tag3"
     ++ attribute "title" "just a test"
     ++ " tmap.id=" ++ dq ++ "8b72e085" ++ dq)
    "!This is a test tiddler.".

(** A second tiddler: no [tags] and no [modified] attribute, and one
    attribute that is not a field of the class. *)
Definition plain : string :=
  block_text
    (created_ok ++ attribute "title" "second" ++ attribute "color" "red")
    "body".

(** A tiddler whose body holds pieces of the markers. *)
Definition markup : string :=
  block_text
    (created_ok ++ attribute "title" "markup")
    "see </pre> and </div> and <div> and <pre>".

(** A system tiddler. *)
Definition system : string :=
  block_text (created_ok ++ attribute "title" "$:/core") "internal".

(** A tiddler whose [created] attribute is not a timestamp. *)
Definition bad_created : string :=
  block_text (attribute "created" "yesterday" ++ attribute "title" "a") "x".

(** A tiddler whose [modified] attribute is not a timestamp. *)
Definition bad_modified : string :=
  block_text
    (created_ok ++ attribute "modified" "soon" ++ attribute "title" "b") "y".

(** A tiddler with an attribute named [content]. *)
Definition content_attribute : string :=
  block_text
    (created_ok ++ attribute "title" "c" ++ attribute "content" "x") "z".



(** A tiddler with attributes that bear the names of methods. *)
Definition shadowing : string :=
  block_text
    (created_ok ++ attribute "title" "s"
     ++ attribute "export_content" "x" ++ attribute "export" "y")
    "w".

(** An options string with a repeated key and fragments that are not
    attributes. *)
Definition repeated_options : string :=
  attribute "a" "1" ++ " junk" ++ attribute "b" "2" ++ " c=3 =" ++ dq
  ++ attribute "a" "4".

(** The match of the block number [i] of the buffer. *)
Definition nth_block (buffer : string) (i : nat) : Re.Match :=
  default {| Re.m_start := 0; Re.m_end := 0; Re.m_groups := [] |}
          (Re.finditer RE_TIDDLER buffer !! i).

Definition first_tiddler (buffer : string) : Tiddler :=
  default ∅ (head (yields (finditer buffer))).

End Examples.

(** ** Further notions on matches *)

Module Matches.

Import Re Tiddler.

(** [match.group(0)]: the text of the buffer that the match spans. *)
Definition group0 (buffer : string) (m : Match) : string :=
  slice buffer (m_start m, m_end m).

(** A match moved [d] characters to the right. *)
Definition shift (d : nat) (m : Match) : Match :=
  {| m_start := m_start m + d;
     m_end := m_end m + d;
     m_groups := m_groups m |}.

(** One generator after the other: the second starts when the first is
    exhausted, and never starts when the first raises. *)
Fixpoint chain (g1 g2 : generator) : generator :=
  match g1 with
  | Yield t rest => Yield t (chain rest g2)
  | StopIteration => g2
  | Raise e => Raise e
  end.

(** A character that is not white space. *)
Definition not_space (c : ascii) : bool := negb (is_space c).

(** A character other than the opening angle bracket. *)
Definition not_lt (c : ascii) : bool := negb (Ascii.eqb c "<").

(** No suffix of [l] that is not empty is at the start of [t]. *)
Fixpoint no_suffix_starts (l t : string) : Prop :=
  match l with
  | EmptyString => True
  | String _ l' => strip_prefix l t = None /\ no_suffix_starts l' t
  end.

End Matches.

(** ** The methods of a record *)

Module Methods.

Import Tiddler.

Definition tab : string := String "009" EmptyString.

(** What a method can raise: [AttributeError] for a field that the instance
    does not have, the built-in exceptions, and the exception of a
    collaborator ([pypandoc], the converter of the mixin), whose kind the
    methods never look at. *)
Inductive raised : Type :=
| AttributeError
| Builtin (e : exn)
| External.

Inductive call (A : Type) : Type :=
| Returns (a : A)
| Raises (e : raised).

Arguments Returns {A} a.
Arguments Raises {A} e.

(** A method that prints: the lines written to the standard output, and
    the way the call ends. *)
Definition io (A : Type) : Type := (list string * call A)%type.

Definition ret {A : Type} (a : A) : io A := ([], Returns a).

Definition raise {A : Type} (e : raised) : io A := ([], Raises e).

Definition print (line : string) : io unit := ([line], Returns tt).

#[global] Instance io_bind : MBind io :=
  fun A B (f : A -> io B) (r : io A) =>
    match r with
    | (out, Returns a) => let '(out', b) := f a in ((out ++ out')%list, b)
    | (out, Raises e) => (out, Raises e)
    end.

(** The call of a collaborator: [None] when it raises. *)
Definition external {A : Type} (r : option A) : io A :=
  match r with
  | Some a => ret a
  | None => raise External
  end.

(** [self.name]. *)
Definition getattr (self : Tiddler) (name : string) : io pyval :=
  match self !! name with
  | Some v => ret v
  | None => raise AttributeError
  end.

(** [v + s] and [s + v] for a [str] [s]: a [TypeError] unless [v] is a
    [str]. *)
Definition add_str (v : pyval) (s : string) : io string :=
  match v with
  | PStr a => ret (a ++ s)
  | _ => raise (Builtin TypeError)
  end.

Definition str_add (s : string) (v : pyval) : io string :=
  match v with
  | PStr a => ret (s ++ a)
  | _ => raise (Builtin TypeError)
  end.

(** [self.name(...)] for a method [name] of the class: an instance
    attribute of that name, which [__dict__.update(kwargs)] can set,
    shadows the method, and none of the values of a record is callable. *)
Definition call_method {A : Type} (self : Tiddler) (name : string)
    (method : io A) : io A :=
  match self !! name with
  | Some _ => raise (Builtin TypeError)
  | None => method
  end.

(** [v == s] for a [str] [s]. *)
Definition eq_str (v : pyval) (s : string) : bool :=
  match v with
  | PStr a => String.eqb a s
  | _ => false
  end.

(** What [print(type(v))] writes. *)
Definition type_line (v : pyval) : string :=
  match v with
  | PNone => "<class 'NoneType'>"
  | PStr _ => "<class 'str'>"
  | PList _ => "<class 'list'>"
  | PDate _ => "<class 'datetime.datetime'>"
  end.

(** [s.split(sep)] for a separator of one character; the list is never
    empty. *)
Fixpoint split (sep : ascii) (s : string) : list string :=
  match s with
  | EmptyString => [EmptyString]
  | String c s' =>
      if Ascii.eqb c sep then EmptyString :: split sep s'
      else
        match split sep s' with
        | h :: t => String c h :: t
        | [] => [String c EmptyString]
        end
  end.

(** [l[-1]] for a list that is not empty. *)
Definition last_item (l : list string) : string := List.last l EmptyString.

(** A character other than the dot. *)
Definition not_dot (c : ascii) : bool := negb (Ascii.eqb c ".").

(** The call that ends [export_to_file]:
    [pypandoc.convert_text(source, to, format='md', outputfile=outputfile)]. *)
Record conversion : Type := {
  source : pyval;
  to : string;
  outputfile : string
}.

Section Builtins.

(** The built-in [str] and [reprlib.repr]; on the values of a record they
    return a [str]. *)
Variable str : pyval -> string.
Variable reprlib_repr : pyval -> string.

(** [Tw5Mixin.convert_tw5_to_md(content, latex_gif=...)] and
    [pypandoc.convert_text(source, to, format=...)]: [None] when the call
    raises. *)
Variable convert_tw5_to_md : pyval -> bool -> option string.
Variable convert_text : pyval -> string -> string -> option string.

(** [md.encode('latin-1', errors='ignore').decode('latin-1')]. *)
Variable latin_1 : string -> string.

(** [Tiddler.__str__]. *)
Definition __str__ (self : Tiddler) : io string :=
  title ← getattr self "title";
  result ← add_str title (nl ++ tab ++ "tags: ");
  tags ← getattr self "tags";
  created ← getattr self "created";
  modified ← getattr self "modified";
  content ← getattr self "content";
  ret (result ++ str tags ++ nl
       ++ tab ++ "created: " ++ str created ++ ", "
       ++ tab ++ "modified: " ++ str modified ++ nl
       ++ tab ++ reprlib_repr content).

(** [Tiddler.export_content]. *)
Definition export_content (self : Tiddler) (format : string)
    (latex_gif : bool) : io string :=
  type_ ← getattr self "type_";
  content ←
    (if eq_str type_ "text/vnd.tiddlywiki" then
       content ← getattr self "content";
       md ← external (convert_tw5_to_md content latex_gif);
       ret (PStr md)
     else if eq_str type_ "text/html" then
       content ← getattr self "content";
       md ← external (convert_text content "md" "html");
       ret (PStr md)
     else if eq_str type_ "text/x-markdown" then
       content ← getattr self "content";
       _ ← print (type_line content);
       ret content
     else getattr self "content");
  external (convert_text content format "md").

(** [Tiddler.export]: the bare [except] turns every failure of the last
    conversion into the result [None]. *)
Definition export (self : Tiddler) (format : string) (latex_gif : bool)
    : io (option string) :=
  title ← getattr self "title";
  result ← str_add "# " title;
  let result := result ++ nl in
  created ← getattr self "created";
  let result := result ++ "**created**: " ++ str created ++ ",  " in
  modified ← getattr self "modified";
  let result := result ++ "**last modified**: " ++ str modified ++ nl ++ nl in
  tags ← getattr self "tags";
  let result :=
    result ++ "**keywords**: " ++ str tags ++ nl ++ nl ++ "---" ++ nl ++ nl in
  body ← call_method self "export_content"
           (export_content self "md" latex_gif);
  let result := result ++ body in
  match convert_text (PStr result) format "md" with
  | Some result => ret (Some result)
  | None => _ ← print "error occured"; ret None
  end.

(** The format that [export_to_file] uses: the one given, or what follows
    the last dot of the path. *)
Definition export_to_file_format (path : string) (format : option string)
    : string :=
  match format with
  | None => last_item (split "." path)
  | Some format => format
  end.

(** [Tiddler.export_to_file], up to the call that writes the file. *)
Definition export_to_file (self : Tiddler) (path : string)
    (format : option string) : io conversion :=
  let format := export_to_file_format path format in
  md ← call_method self "export" (export self "md" false);
  md ←
    (if String.eqb format "pdf" then
       match md with
       | Some md => ret (PStr (latin_1 md))
       | None => raise AttributeError
       end
     else ret (match md with Some md => PStr md | None => PNone end));
  ret {| source := md; to := format; outputfile := path |}.

End Builtins.

End Methods.

(** * Facts *)

(** ** Strings *)

#[local] Arguments String.append !_ _ / : simpl nomatch.

Section StringFacts.

Implicit Types a b c l r s t : string.

Lemma str_app_nil_r s : s ++ EmptyString = s.
Proof. induction s as [|x s IH]; simpl; [done | by rewrite IH]. Qed.

Lemma str_app_assoc a b c : (a ++ b) ++ c = a ++ b ++ c.
Proof. induction a as [|x a IH]; simpl; [done | by rewrite IH]. Qed.

Lemma str_length_app a b :
  String.length (a ++ b) = (String.length a + String.length b)%nat.
Proof. induction a as [|x a IH]; simpl; [done | by rewrite IH]. Qed.

Lemma strip_prefix_Some l s r : strip_prefix l s = Some r <-> s = l ++ r.
Proof.
  revert s. induction l as [|x l IH]; intros s; simpl.
  - split; congruence.
  - destruct s as [|y s]; [split; discriminate |].
    destruct (Ascii.eqb_spec x y) as [->|Hne].
    + rewrite IH. split; congruence.
    + split; [discriminate | congruence].
Qed.

Lemma strip_prefix_app l r : strip_prefix l (l ++ r) = Some r.
Proof. by apply strip_prefix_Some. Qed.

Lemma strip_prefix_extend l s r t :
  strip_prefix l s = Some r -> strip_prefix l (s ++ t) = Some (r ++ t).
Proof.
  intros H%strip_prefix_Some. subst s. rewrite str_app_assoc.
  apply strip_prefix_app.
Qed.

Lemma strip_prefix_None_extend l s t :
  strip_prefix l s = None -> (String.length l <= String.length s)%nat ->
  strip_prefix l (s ++ t) = None.
Proof.
  revert s. induction l as [|x l IH]; intros s; simpl; [discriminate |].
  destruct s as [|y s]; simpl; [lia |].
  destruct (Ascii.eqb x y); [| done].
  intros H Hlen. apply IH; [done | lia].
Qed.

Lemma find_first_split l s a r :
  find_first l s = Some (a, r) -> s = a ++ l ++ r.
Proof.
  revert a. induction s as [|x s IH]; intros a; simpl.
  - destruct (strip_prefix l EmptyString) eqn:E; [| discriminate].
    intros [= <- <-]. simpl. by apply strip_prefix_Some.
  - destruct (strip_prefix l (String x s)) eqn:E.
    + intros [= <- <-]. simpl. by apply strip_prefix_Some.
    + destruct (find_first l s) as [[a0 r0]|] eqn:F; [| discriminate].
      intros [= <- <-]. simpl. f_equal. by apply IH.
Qed.

(** The split is at the leftmost occurrence. *)
Lemma find_first_least l s a r a' r' :
  find_first l s = Some (a, r) -> s = a' ++ l ++ r' ->
  (String.length a <= String.length a')%nat.
Proof.
  revert a a'. induction s as [|x s IH]; intros a a'; simpl.
  - destruct (strip_prefix l EmptyString); [| discriminate].
    intros [= <- <-] _. simpl. lia.
  - destruct (strip_prefix l (String x s)) eqn:E.
    + intros [= <- <-] _. simpl. lia.
    + destruct (find_first l s) as [[a0 r0]|] eqn:F; [| discriminate].
      intros [= <- <-] Heq. destruct a' as [|y a']; simpl in Heq.
      * apply strip_prefix_Some in Heq. congruence.
      * injection Heq as -> Heq. simpl.
        specialize (IH _ _ eq_refl Heq). lia.
Qed.

Lemma find_first_None l s a r :
  find_first l s = None -> s <> a ++ l ++ r.
Proof.
  revert a. induction s as [|x s IH]; intros a; simpl.
  - destruct (strip_prefix l EmptyString) eqn:E; [discriminate |].
    intros _ Heq. destruct a; simpl in Heq.
    + apply strip_prefix_Some in Heq. congruence.
    + discriminate.
  - destruct (strip_prefix l (String x s)) eqn:E; [discriminate |].
    destruct (find_first l s) as [[a0 r0]|] eqn:F; [discriminate |].
    intros _ Heq. destruct a as [|y a]; simpl in Heq.
    + apply strip_prefix_Some in Heq. congruence.
    + injection Heq as -> Heq. by eapply IH.
Qed.

Lemma find_first_here l s r :
  strip_prefix l s = Some r -> find_first l s = Some (EmptyString, r).
Proof. intros H. destruct s; simpl; by rewrite H. Qed.

(** Text added after the subject does not move the leftmost occurrence. *)
Lemma find_first_extend l s a r t :
  find_first l s = Some (a, r) -> find_first l (s ++ t) = Some (a, r ++ t).
Proof.
  revert a. induction s as [|x s IH]; intros a.
  - simpl. destruct (strip_prefix l EmptyString) eqn:E; [| discriminate].
    intros [= <- <-]. apply find_first_here.
    apply (strip_prefix_extend _ _ _ t E).
  - cbn [find_first]. destruct (strip_prefix l (String x s)) eqn:E.
    + intros [= <- <-]. apply find_first_here.
      apply (strip_prefix_extend _ _ _ t E).
    + destruct (find_first l s) as [[a0 r0]|] eqn:F; [| discriminate].
      intros [= <- <-].
      assert (Hlen : (String.length l <= String.length (String x s))%nat).
      { apply find_first_split in F. subst s. simpl.
        rewrite !str_length_app. lia. }
      pose proof (strip_prefix_None_extend _ _ t E Hlen) as E'.
      simpl in E'. simpl. rewrite E'. by rewrite (IH _ eq_refl).
Qed.

(** No occurrence in a text, none in its suffixes. *)
Lemma find_first_None_suffix l a t :
  find_first l (a ++ t) = None -> find_first l t = None.
Proof.
  induction a as [|x a IH]; simpl; [done |].
  destruct (strip_prefix l (String x (a ++ t))); [discriminate |].
  destruct (find_first l (a ++ t)) as [[a0 r0]|]; [discriminate |].
  intros _. by apply IH.
Qed.

Lemma substring_app_mid a b c :
  substring (String.length a) (String.length b) (a ++ b ++ c) = b.
Proof.
  induction a as [|x a IH]; simpl; [| done].
  induction b as [|y b IHb]; simpl; [by destruct c | by rewrite IHb].
Qed.

End StringFacts.


(** ** The matcher *)

Section StarFacts.

Import Re.
Context {R : Type}.
Implicit Types (k : string -> nat -> option R) (s l : string).

Lemma str_app_suffix (u v r r' : string) :
  u ++ r = v ++ r' -> (String.length u <= String.length v)%nat ->
  exists x, r = x ++ r'.
Proof.
  revert v. induction u as [|y u IH]; intros v; simpl.
  - intros -> _. by exists v.
  - destruct v as [|z v]; simpl; [lia |]. intros [= _ Heq] Hlen.
    apply (IH v); [done | lia].
Qed.

(** A lazy [[\w\W]*?] followed by the literal [l] stops at the leftmost
    occurrence of [l], provided the rest of the pattern [F], once it fails
    after some occurrence, fails after every later one. *)
Lemma lazy_star_any_literal l (F : string -> nat -> option R) k :
  (forall s p, k s p =
     match strip_prefix l s with
     | Some r => F r p
     | None => None
     end) ->
  (forall a t p p', F (a ++ t) p = None -> F t p' = None) ->
  forall s pos,
    lazy_star (in_charset AnyChar) k s pos =
    match find_first l s with
    | Some (a, r) => F r (pos + String.length a)
    | None => None
    end.
Proof.
  intros Hk HF. induction s as [|x s IH]; intros pos.
  - simpl. rewrite Hk. destruct (strip_prefix l EmptyString) eqn:E; [| done].
    simpl. rewrite Nat.add_0_r. by destruct (F _ _).
  - cbn [lazy_star find_first in_charset]. rewrite Hk.
    destruct (strip_prefix l (String x s)) as [r|] eqn:E.
    + simpl. rewrite Nat.add_0_r.
      destruct (F r pos) eqn:EF; [done |].
      rewrite IH. destruct (find_first l s) as [[a r']|] eqn:Ff; [| done].
      apply strip_prefix_Some in E. apply find_first_split in Ff.
      assert (Hsuf : exists x0, r = x0 ++ r').
      { apply (str_app_suffix l (String x (a ++ l))).
        - rewrite <- E. simpl. rewrite str_app_assoc. by rewrite <- Ff.
        - simpl. rewrite str_length_app. lia. }
      destruct Hsuf as [x0 ->]. by eapply HF.
    + rewrite IH. destruct (find_first l s) as [[a r']|]; [| done].
      simpl. f_equal. lia.
Qed.

End StarFacts.

Section TiddlerPattern.

Import Re Tiddler.

Lemma strip_prefix_app2 a b s :
  strip_prefix (a ++ b) s =
  match strip_prefix a s with
  | Some r => strip_prefix b r
  | None => None
  end.
Proof.
  revert s. induction a as [|x a IH]; intros s; simpl; [done |].
  destruct s as [|y s]; [done |]. destruct (Ascii.eqb x y); [apply IH | done].
Qed.

(** What [RE_TIDDLER] matches at the start of [s]: the block that
    [split_block] reads there. *)
Lemma exec_RE_TIDDLER s pos :
  exec RE_TIDDLER no_marks s pos =
  match split_block s with
  | Some (o, c, _) => Some (block_end pos o c, block_marks pos o c)
  | None => None
  end.
Proof.
  unfold RE_TIDDLER, split_block. cbn [exec star].
  change (strip_prefix "<div" s) with (strip_prefix div_open s).
  destruct (strip_prefix div_open s) as [s1|]; [| done].
  rewrite (lazy_star_any_literal pre_open
    (fun r p =>
       match find_first block_close r with
       | Some (c, _) =>
           Some (p + 7 + String.length c + 13,
                 close_group "content" (p + 7 + String.length c)
                   (open_group "content" (p + 7)
                      (close_group "options" p
                         (open_group "options" (pos + 4) no_marks))))
       | None => None
       end)).
  - destruct (find_first pre_open s1) as [[o s2]|]; [| done].
    destruct (find_first block_close s2) as [[c s3]|]; [| done].
    reflexivity.
  - intros s0 p.
    change pre_open with ((">" ++ nl) ++ "<pre>").
    rewrite (strip_prefix_app2 (">" ++ nl) "<pre>").
    destruct (strip_prefix (">" ++ nl) s0) as [s0'|]; [| done].
    destruct (strip_prefix "<pre>" s0') as [s0''|]; [| done].
    rewrite (lazy_star_any_literal block_close
      (fun _ p1 =>
         Some (p1 + 13,
               close_group "content" p1
                 (open_group "content" (p + 7)
                    (close_group "options" p
                       (open_group "options" (pos + 4) no_marks)))))).
    + simpl String.length.
      destruct (find_first block_close s0'') as [[c s3]|]; [| done].
      repeat (f_equal; try lia).
    + intros s1' p1.
      change block_close with (("</pre>" ++ nl) ++ "</div>").
      rewrite (strip_prefix_app2 ("</pre>" ++ nl) "</div>").
      simpl String.length.
      destruct (strip_prefix ("</pre>" ++ nl) s1') as [s1''|]; [| done].
      destruct (strip_prefix "</div>" s1''); [| done].
      repeat (f_equal; try lia).
    + discriminate.
  - intros a t p p'.
    destruct (find_first block_close (a ++ t)) as [[c s3]|] eqn:E;
      [discriminate |].
    intros _. by rewrite (find_first_None_suffix _ _ _ E).
Qed.

Lemma scan_skip p subject a s pos :
  scan p subject (a ++ s) pos (String.length a) =
  scan p subject s (pos + String.length a) 0.
Proof.
  revert pos. induction a as [|x a IH]; intros pos.
  - simpl. by rewrite Nat.add_0_r.
  - simpl. rewrite Nat.sub_0_r, IH. f_equal. lia.
Qed.

Lemma split_block_Some s o c r :
  split_block s = Some (o, c, r) -> s = block_text o c ++ r.
Proof.
  unfold split_block, block_text.
  destruct (strip_prefix div_open s) as [s1|] eqn:E1; [| discriminate].
  destruct (find_first pre_open s1) as [[o' s2]|] eqn:E2; [| discriminate].
  destruct (find_first block_close s2) as [[c' s3]|] eqn:E3; [| discriminate].
  intros [= <- <- <-].
  apply strip_prefix_Some in E1. apply find_first_split in E2, E3.
  subst. by rewrite !str_app_assoc.
Qed.

Lemma block_text_length o c :
  String.length (block_text o c) = block_end 0 o c.
Proof.
  unfold block_text, block_end. rewrite !str_length_app. simpl. lia.
Qed.

Lemma block_end_shift pos o c :
  block_end pos o c = (pos + String.length (block_text o c))%nat.
Proof. rewrite block_text_length. unfold block_end. lia. Qed.

Lemma slice_mid a b c n m :
  n = String.length a -> m = (n + String.length b)%nat ->
  slice (a ++ b ++ c) (n, m) = b.
Proof.
  intros -> ->. unfold slice. cbn [fst snd].
  replace (String.length a + String.length b - String.length a)%nat
    with (String.length b) by lia.
  apply substring_app_mid.
Qed.

(** The groups of a match are the options string and the content of the
    block. *)
Lemma mk_match_block pre o c r :
  mk_match (pre ++ block_text o c ++ r) (String.length pre)
    (block_end (String.length pre) o c, block_marks (String.length pre) o c)
  = block_match (String.length pre) o c.
Proof.
  unfold mk_match, block_match, block_marks. cbn [fst snd spans map].
  f_equal. f_equal; [| f_equal]; f_equal.
  - replace (pre ++ block_text o c ++ r)
      with ((pre ++ div_open ++ o ++ pre_open) ++ c ++ block_close ++ r)
      by (unfold block_text; by rewrite !str_app_assoc).
    apply slice_mid; [| done]. rewrite !str_length_app.
    change (String.length div_open) with 4.
    change (String.length pre_open) with 7. lia.
  - replace (pre ++ block_text o c ++ r)
      with ((pre ++ div_open) ++ o ++ pre_open ++ c ++ block_close ++ r)
      by (unfold block_text; by rewrite !str_app_assoc).
    apply slice_mid; [| done]. rewrite !str_length_app.
    change (String.length div_open) with 4. lia.
Qed.

(** One step of the scan with [RE_TIDDLER]. *)
Lemma scan_RE_TIDDLER pre s :
  scan RE_TIDDLER (pre ++ s) s (String.length pre) 0 =
  match split_block s with
  | Some (o, c, r) =>
      block_match (String.length pre) o c ::
      scan RE_TIDDLER (pre ++ s) r (block_end (String.length pre) o c) 0
  | None =>
      match s with
      | String _ s' => scan RE_TIDDLER (pre ++ s) s' (S (String.length pre)) 0
      | EmptyString => []
      end
  end.
Proof.
  destruct (split_block s) as [[[o c] r]|] eqn:E.
  - pose proof (split_block_Some _ _ _ _ E) as Hs.
    assert (Hx : exists x a, block_text o c = String x a) by (by eexists _, _).
    destruct Hx as (x & a & Ha).
    assert (Hlen : String.length a
                   = (block_end (String.length pre) o c
                      - String.length pre - 1)%nat).
    { rewrite block_end_shift, Ha. simpl. lia. }
    rewrite Hs at 2. rewrite Ha. cbn [scan String.append].
    rewrite exec_RE_TIDDLER.
    assert (Hs' : String x (a ++ r) = s) by (by rewrite Hs, Ha).
    rewrite Hs', E. cbn [fst snd app].
    rewrite <- Hlen, scan_skip. f_equal.
    + rewrite Hs. apply mk_match_block.
    + f_equal. rewrite block_end_shift, Ha. simpl. lia.
  - destruct s as [|x s]; cbn [scan]; rewrite exec_RE_TIDDLER, E; done.
Qed.

(** The matches of [RE_TIDDLER] are the blocks of the buffer. *)
Lemma scan_blocks_at n : forall pre s,
  (String.length s <= n)%nat ->
  blocks_at (String.length pre) s
    (scan RE_TIDDLER (pre ++ s) s (String.length pre) 0).
Proof.
  induction n as [n IH] using lt_wf_ind. intros pre s Hn.
  rewrite scan_RE_TIDDLER.
  destruct (split_block s) as [[[o c] r]|] eqn:E.
  - pose proof (split_block_Some _ _ _ _ E) as Hs.
    eapply blocks_found; [done |].
    assert (Hr : (String.length r < String.length s)%nat).
    { rewrite Hs, str_length_app, block_text_length.
      unfold block_end. lia. }
    replace (pre ++ s) with ((pre ++ block_text o c) ++ r)
      by (by rewrite Hs, str_app_assoc).
    replace (block_end (String.length pre) o c)
      with (String.length (pre ++ block_text o c))
      by (by rewrite str_length_app, block_end_shift).
    apply (IH (String.length r)); lia.
  - destruct s as [|x s]; [by constructor |].
    apply blocks_skip; [done |].
    replace (pre ++ String x s) with ((pre ++ String x EmptyString) ++ s)
      by (by rewrite str_app_assoc).
    replace (S (String.length pre))
      with (String.length (pre ++ String x EmptyString))
      by (rewrite str_length_app; simpl; lia).
    apply (IH (String.length s)); simpl in *; lia.
Qed.

Lemma finditer_blocks_at buffer :
  blocks_at 0 buffer (Re.finditer RE_TIDDLER buffer).
Proof.
  apply (scan_blocks_at (String.length buffer) EmptyString buffer). lia.
Qed.

Lemma split_block_extend s o c r t :
  split_block s = Some (o, c, r) ->
  split_block (s ++ t) = Some (o, c, r ++ t).
Proof.
  unfold split_block.
  destruct (strip_prefix div_open s) as [s1|] eqn:E1; [| discriminate].
  destruct (find_first pre_open s1) as [[o' s2]|] eqn:E2; [| discriminate].
  destruct (find_first block_close s2) as [[c' s3]|] eqn:E3; [| discriminate].
  intros [= <- <- <-].
  rewrite (strip_prefix_extend _ _ _ t E1).
  rewrite (find_first_extend _ _ _ _ t E2).
  by rewrite (find_first_extend _ _ _ _ t E3).
Qed.

Lemma str_length_0 s : String.length s = 0%nat -> s = EmptyString.
Proof. by destruct s. Qed.

Lemma is_block_split b :
  is_block b = true ->
  exists o c, split_block b = Some (o, c, EmptyString) /\ b = block_text o c.
Proof.
  unfold is_block. rewrite exec_RE_TIDDLER.
  destruct (split_block b) as [[[o c] r]|] eqn:E; [| discriminate].
  intros He%Nat.eqb_eq. pose proof (split_block_Some _ _ _ _ E) as Hs.
  assert (r = EmptyString) as ->.
  { apply str_length_0. rewrite Hs, str_length_app, block_text_length in He.
    lia. }
  exists o, c. by rewrite str_app_nil_r in Hs.
Qed.

(** The content of a block holds no closing marker: the content capture
    stops at the first one. *)
Lemma split_block_content s o c r :
  split_block s = Some (o, c, r) -> find_first block_close c = None.
Proof.
  unfold split_block.
  destruct (strip_prefix div_open s) as [s1|]; [| discriminate].
  destruct (find_first pre_open s1) as [[o' s2]|]; [| discriminate].
  destruct (find_first block_close s2) as [[c' s3]|] eqn:E3; [| discriminate].
  intros [= <- <- <-].
  destruct (find_first block_close c') as [[a b]|] eqn:F; [| done].
  apply find_first_split in F.
  pose proof (find_first_split _ _ _ _ E3) as Hs2.
  assert (Hle : (String.length c' <= String.length a)%nat).
  { apply (find_first_least _ _ _ _ a (b ++ block_close ++ s3) E3).
    rewrite Hs2 at 1. rewrite F at 1. by rewrite !str_app_assoc. }
  rewrite F, !str_length_app in Hle. simpl in Hle. lia.
Qed.

(** Matches lie one after the other, and each is a block whose content
    holds no closing marker. *)
Lemma blocks_at_ordered pos s ms :
  blocks_at pos s ms ->
  Forall (fun m => (pos <= m_start m < m_end m)%nat
                   /\ find_first block_close (group m "content") = None) ms
  /\ StronglySorted (fun m1 m2 => (m_end m1 <= m_start m2)%nat) ms.
Proof.
  induction 1 as [pos|pos x s ms E Hb [IH1 IH2]|pos s o c r ms E Hb [IH1 IH2]].
  - split; constructor.
  - split; [| done]. eapply Forall_impl; [exact IH1 |].
    intros m [Hm ?]. split; [lia | done].
  - split.
    + constructor.
      * split; [simpl; unfold block_end; lia |].
        apply (split_block_content _ _ _ _ E).
      * eapply Forall_impl; [exact IH1 |].
        intros m [Hm ?]. split; [unfold block_end in Hm; lia | done].
    + constructor; [done |]. eapply Forall_impl; [exact IH1 |].
      intros m [Hm _]. simpl. lia.
Qed.

Lemma finditer_two_blocks o1 c1 o2 c2 :
  split_block (block_text o1 c1) = Some (o1, c1, EmptyString) ->
  split_block (block_text o2 c2) = Some (o2, c2, EmptyString) ->
  Re.finditer RE_TIDDLER (block_text o1 c1 ++ block_text o2 c2) =
  [block_match 0 o1 c1;
   block_match (String.length (block_text o1 c1)) o2 c2].
Proof.
  intros E1 E2. unfold Re.finditer.
  pose proof (scan_RE_TIDDLER EmptyString
                (block_text o1 c1 ++ block_text o2 c2)) as H1.
  rewrite (split_block_extend _ _ _ _ (block_text o2 c2) E1) in H1.
  simpl String.length in H1. cbn [String.append] in H1.
  rewrite H1. f_equal.
  pose proof (scan_RE_TIDDLER (block_text o1 c1) (block_text o2 c2)) as H2.
  rewrite E2 in H2. rewrite <- block_text_length, H2. reflexivity.
Qed.

End TiddlerPattern.

(** ** The attribute pattern *)

Section OptionPattern.

Import Re Tiddler.

Lemma word_not_space c : is_word c = true -> is_space c = false.
Proof. destruct c as [[] [] [] [] [] [] [] []]; vm_compute; congruence. Qed.

Lemma word_not_equals c : is_word c = true -> Ascii.eqb "=" c = false.
Proof. destruct c as [[] [] [] [] [] [] [] []]; vm_compute; congruence. Qed.

(** A lazy run of word characters before a continuation that fails on
    every word character goes to the end of the run. *)
Lemma lazy_star_word_run {R : Type} (K : string -> nat -> option R) k tail pos r :
  all_chars is_word k = true ->
  (forall c b p, is_word c = true -> K (String c b) p = None) ->
  K tail (pos + String.length k) = Some r ->
  lazy_star (in_charset WordChar) K (k ++ tail) pos = Some r.
Proof.
  intros Hk HK. revert pos. induction k as [|c k IH]; intros pos Hr.
  - simpl in *. rewrite Nat.add_0_r in Hr. destruct tail; simpl; by rewrite Hr.
  - simpl in Hk. apply andb_true_iff in Hk as [Hc Hk].
    cbn [String.append lazy_star in_charset]. rewrite (HK _ _ _ Hc), Hc.
    apply (IH Hk). rewrite <- Hr. f_equal. simpl. lia.
Qed.

Lemma find_first_quote v rest :
  quote_free v = true ->
  find_first dq (v ++ dq ++ rest) = Some (v, rest).
Proof.
  induction v as [|c v IH]; [done |]. unfold quote_free. cbn [all_chars].
  intros [Hc Hv]%andb_true_iff. cbn [String.append find_first strip_prefix].
  unfold dq at 1. cbn [strip_prefix].
  rewrite Ascii.eqb_sym. apply negb_true_iff in Hc. rewrite Hc.
  fold dq. by rewrite (IH Hv).
Qed.

(** What [RE_OPTION] matches at the start of the text of an attribute. *)
Lemma exec_RE_OPTION k v rest pos :
  is_key k = true -> quote_free v = true ->
  exec RE_OPTION no_marks (attribute k v ++ rest) pos =
  Some (pos + String.length (attribute k v), attribute_marks pos k v).
Proof.
  destruct k as [|c k]; [done |]. cbn [is_key all_chars].
  intros [Hc Hk]%andb_true_iff Hv. unfold RE_OPTION.
  assert (Hlen : String.length (attribute (String c k) v)
                 = (String.length k + String.length v + 5)%nat).
  { unfold attribute. rewrite !str_length_app. simpl. lia. }
  rewrite Hlen. unfold attribute.
  rewrite !str_app_assoc. cbn [exec String.append in_charset].
  change (is_space " ") with true. cbn [star greedy_star in_charset].
  rewrite (word_not_space _ Hc). cbn [exec]. rewrite Hc. cbn [star].
  apply lazy_star_word_run; [done | |].
  - intros c' b p Hc'. cbn [strip_prefix]. by rewrite (word_not_equals _ Hc').
  - cbn [strip_prefix]. change (Ascii.eqb "=" "=") with true. cbv iota.
    rewrite strip_prefix_app.
    rewrite (lazy_star_any_literal dq
      (fun _ p1 =>
         Some (p1 + 1,
               close_group "value" p1
                 (open_group "value" (S (S pos) + String.length k + 2)
                    (close_group "key" (S (S pos) + String.length k)
                       (open_group "key" (S pos) no_marks)))))).
    + rewrite (find_first_quote _ _ Hv). unfold attribute_marks.
      cbn [String.length]. change (S (String.length dq)) with 2. cbv zeta.
      replace (pos + 1)%nat with (S pos) by lia.
      replace (S pos + S (String.length k))%nat
        with (S (S pos) + String.length k)%nat by lia.
      replace (pos + (String.length k + String.length v + 5))%nat
        with (S (S pos) + String.length k + 2 + String.length v + 1)%nat
        by lia.
      reflexivity.
    + intros s0 p. by destruct (strip_prefix dq s0).
    + discriminate.
Qed.

(** The groups of the match are the key and the value of the attribute. *)
Lemma mk_match_attribute pre k v rest :
  mk_match (pre ++ attribute k v ++ rest) (String.length pre)
    (String.length pre + String.length (attribute k v),
     attribute_marks (String.length pre) k v)
  = attribute_match (String.length pre) k v.
Proof.
  unfold mk_match, attribute_match, attribute_marks. cbn [fst snd spans map].
  f_equal. f_equal; [| f_equal]; f_equal.
  - replace (pre ++ attribute k v ++ rest)
      with ((pre ++ " " ++ k ++ "=" ++ dq) ++ v ++ dq ++ rest)
      by (unfold attribute; by rewrite !str_app_assoc).
    apply slice_mid; [| done]. rewrite !str_length_app. simpl. lia.
  - replace (pre ++ attribute k v ++ rest)
      with ((pre ++ " ") ++ k ++ "=" ++ dq ++ v ++ dq ++ rest)
      by (unfold attribute; by rewrite !str_app_assoc).
    apply slice_mid; [| done]. rewrite !str_length_app. simpl. lia.
Qed.

(** One step of the scan with [RE_OPTION], at the text of an attribute. *)
Lemma scan_attribute pre k v rest :
  is_key k = true -> quote_free v = true ->
  scan RE_OPTION (pre ++ attribute k v ++ rest) (attribute k v ++ rest)
    (String.length pre) 0
  = attribute_match (String.length pre) k v
    :: scan RE_OPTION (pre ++ attribute k v ++ rest) rest
         (String.length pre + String.length (attribute k v)) 0.
Proof.
  intros Hk Hv.
  assert (Ha : exists a, attribute k v = String " " a) by (by eexists).
  destruct Ha as [a Ha].
  pose proof (exec_RE_OPTION k v rest (String.length pre) Hk Hv) as He.
  assert (Hlen : String.length a
                 = (String.length pre + String.length (attribute k v)
                    - String.length pre - 1)%nat).
  { rewrite Ha. simpl. lia. }
  rewrite Ha in He |- * at 2. cbn [String.append] in He.
  cbn [scan String.append]. rewrite He. cbn [fst snd app].
  rewrite <- Ha, <- Hlen, scan_skip. f_equal.
  - apply mk_match_attribute.
  - f_equal. rewrite Ha. simpl. lia.
Qed.

(** The scan of the text of a sequence of well-formed attributes finds
    exactly these attributes, in order. *)
Lemma scan_attributes kvs : forall pre,
  forallb well_formed kvs = true ->
  map (fun m => (group m "key", group m "value"))
      (scan RE_OPTION (pre ++ attributes_text kvs) (attributes_text kvs)
            (String.length pre) 0)
  = kvs.
Proof.
  induction kvs as [|[k v] kvs IH]; intros pre; [done |].
  cbn [forallb attributes_text foldr fst snd]. fold (attributes_text kvs).
  intros [Hkv Hkvs]%andb_true_iff.
  apply andb_true_iff in Hkv as [Hk Hv]. cbn [fst snd] in Hk, Hv.
  rewrite (scan_attribute _ _ _ _ Hk Hv). cbn [map]. f_equal.
  replace (pre ++ attribute k v ++ attributes_text kvs)
    with ((pre ++ attribute k v) ++ attributes_text kvs)
    by (by rewrite str_app_assoc).
  rewrite <- str_length_app. by apply IH.
Qed.

End OptionPattern.



(** ** The loop body of [finditer] *)

Section LoopBody.

Import Re Tiddler.

Context {helpers : Tw5Mixin.Helpers}.

(** The model of [get_tag_list] on the tag expression of the
    specification. *)
Lemma get_tag_list_example :
  Tw5Mixin.get_tag_list "[[multi word tag]] tag2 tag3"
  = ["multi word tag"; "tag2"; "tag3"].
Proof. reflexivity. Qed.

Lemma normalize_tags_None (attr : dict) :
  attr !! "tags" = None -> normalize_tags attr = Ok attr.
Proof. intros H. unfold normalize_tags, getitem. by rewrite H. Qed.

Lemma normalize_tags_Some (attr : dict) v :
  attr !! "tags" = Some (PStr v) ->
  normalize_tags attr = Ok (<["tags" := PList (Tw5Mixin.get_tag_list v)]> attr).
Proof. intros H. unfold normalize_tags, getitem. by rewrite H. Qed.

Lemma normalize_modified_None (attr : dict) :
  attr !! "modified" = None -> normalize_modified attr = Ok attr.
Proof. intros H. unfold normalize_modified, getitem. by rewrite H. Qed.

Lemma normalize_modified_Some (attr : dict) v :
  attr !! "modified" = Some (PStr v) ->
  normalize_modified attr =
  match Tw5Mixin.string_to_date v with
  | Ok d => Ok (<["modified" := PDate d]> attr)
  | Err KeyError => Ok attr
  | Err e => Err e
  end.
Proof.
  intros Hv. unfold normalize_modified, getitem. rewrite Hv. simpl.
  by destruct (Tw5Mixin.string_to_date v) as [d|[]].
Qed.

Lemma normalize_created_None (attr : dict) :
  attr !! "created" = None -> normalize_created attr = Err KeyError.
Proof. intros H. unfold normalize_created, getitem. by rewrite H. Qed.

Lemma normalize_created_Some (attr : dict) v :
  attr !! "created" = Some (PStr v) ->
  normalize_created attr =
  match Tw5Mixin.string_to_date v with
  | Ok d => Ok (<["created" := PDate d]> attr)
  | Err e => Err e
  end.
Proof.
  intros Hv. unfold normalize_created, getitem. rewrite Hv. simpl.
  by destruct (Tw5Mixin.string_to_date v).
Qed.

Lemma system_title_None (attr : dict) :
  attr !! "title" = None -> system_title attr = Err KeyError.
Proof. intros H. unfold system_title, getitem. by rewrite H. Qed.

Lemma system_title_Some (attr : dict) t :
  attr !! "title" = Some (PStr t) ->
  system_title attr = Ok (startswith t "$:/").
Proof. intros H. unfold system_title, getitem. by rewrite H. Qed.

(** The loop body, read off the attributes of the block: the parse error
    of [modified] is passed over when it is a [KeyError] and escapes
    otherwise; the parse error of [created] skips the block when it is a
    [KeyError] and escapes otherwise. *)
Lemma loop_body_cases m :
  loop_body m =
  let a := attributes m in
  match match a !! "modified" with
        | Some v =>
            match Tw5Mixin.string_to_date v with
            | Ok _ | Err KeyError => None
            | Err e => Some e
            end
        | None => None
        end with
  | Some e => Raised e
  | None =>
      match a !! "created" with
      | None => Skipped
      | Some v =>
          match Tw5Mixin.string_to_date v with
          | Err KeyError => Skipped
          | Err e => Raised e
          | Ok _ =>
              match a !! "title" with
              | None => Skipped
              | Some t =>
                  if startswith t "$:/" then Skipped
                  else
                    match new (PStr (group m "content")) (normalized a) with
                    | Ok t => Yielded t
                    | Err e => Raised e
                    end
              end
          end
      end
  end.
Proof.
  unfold loop_body, normalized. fold (attributes m).
  set (a := attributes m). cbn zeta.
  set (attr0 := PStr <$> a).
  assert (H0 : forall k, attr0 !! k = PStr <$> a !! k)
    by (intros k; apply lookup_fmap).
  assert (E1 : exists attr1 : dict,
             normalize_tags attr0 = Ok attr1
             /\ attr1 = match a !! "tags" with
                        | Some v => <["tags" := PList (Tw5Mixin.get_tag_list v)]> attr0
                        | None => attr0
                        end).
  { destruct (a !! "tags") as [vt|] eqn:Et.
    - eexists. split; [| done]. apply normalize_tags_Some. by rewrite H0, Et.
    - eexists. split; [| done]. apply normalize_tags_None. by rewrite H0, Et. }
  destruct E1 as (attr1 & -> & Hattr1).
  assert (H1 : forall k, k <> "tags" -> attr1 !! k = PStr <$> a !! k).
  { intros k Hk. rewrite Hattr1.
    destruct (a !! "tags"); [rewrite lookup_insert_ne by done |]; apply H0. }
  rewrite <- Hattr1. clear Hattr1.
  assert (Hrest : forall attr2 : dict,
             (forall k, k <> "tags" -> k <> "modified" ->
                        attr2 !! k = PStr <$> a !! k) ->
             match normalize_created attr2 with
             | Ok attr =>
                 match system_title attr with
                 | Ok true => Skipped
                 | Ok false =>
                     match new (PStr (group m "content")) attr with
                     | Ok t => Yielded t
                     | Err e => Raised e
                     end
                 | Err KeyError => Skipped
                 | Err e => Raised e
                 end
             | Err KeyError => Skipped
             | Err e => Raised e
             end
             = match a !! "created" with
               | None => Skipped
               | Some v =>
                   match Tw5Mixin.string_to_date v with
                   | Err KeyError => Skipped
                   | Err e => Raised e
                   | Ok _ =>
                       match a !! "title" with
                       | None => Skipped
                       | Some t =>
                           if startswith t "$:/" then Skipped
                           else
                             match
                               new (PStr (group m "content"))
                                 match Tw5Mixin.string_to_date <$> a !! "created" with
                                 | Some (Ok d) => <["created" := PDate d]> attr2
                                 | _ => attr2
                                 end
                             with
                             | Ok t => Yielded t
                             | Err e => Raised e
                             end
                       end
                   end
               end).
  { intros attr2 H2.
    destruct (a !! "created") as [vc|] eqn:Ec; cbn [fmap option_fmap option_map].
    - rewrite (normalize_created_Some _ vc) by (by rewrite H2, Ec).
      destruct (Tw5Mixin.string_to_date vc) as [dc|[]] eqn:Edc; [| done..].
      destruct (a !! "title") as [t|] eqn:Etl.
      + rewrite (system_title_Some _ t)
          by (by rewrite lookup_insert_ne, H2, Etl).
        by destruct (startswith t "$:/").
      + by rewrite system_title_None
          by (by rewrite lookup_insert_ne, H2, Etl).
    - by rewrite normalize_created_None by (by rewrite H2, Ec). }
  destruct (a !! "modified") as [vm|] eqn:Em; cbn [fmap option_fmap option_map].
  - rewrite (normalize_modified_Some _ vm) by (by rewrite H1, Em).
    destruct (Tw5Mixin.string_to_date vm) as [dm|[]] eqn:Edm; [| | done..].
    + apply Hrest. intros k Hk Hk'. rewrite lookup_insert_ne by done.
      by apply H1.
    + apply Hrest. intros k Hk _. by apply H1.
  - rewrite normalize_modified_None by (by rewrite H1, Em).
    apply Hrest. intros k Hk _. by apply H1.
Qed.

Lemma normalized_lookup a k :
  k <> "tags" -> k <> "modified" -> k <> "created" ->
  normalized a !! k = PStr <$> a !! k.
Proof.
  intros Ht Hm Hc. unfold normalized.
  destruct (Tw5Mixin.string_to_date <$> a !! "created") as [[?|?]|];
    [rewrite lookup_insert_ne by done | |];
    (destruct (Tw5Mixin.string_to_date <$> a !! "modified") as [[?|?]|];
     [rewrite lookup_insert_ne by done | |]);
    (destruct (a !! "tags");
     [rewrite lookup_insert_ne by done |]); apply lookup_fmap.
Qed.

Lemma normalized_tags a :
  normalized a !! "tags"
  = (fun v => PList (Tw5Mixin.get_tag_list v)) <$> a !! "tags".
Proof.
  unfold normalized.
  destruct (Tw5Mixin.string_to_date <$> a !! "created") as [[?|?]|];
    [rewrite lookup_insert_ne by done | |];
    (destruct (Tw5Mixin.string_to_date <$> a !! "modified") as [[?|?]|];
     [rewrite lookup_insert_ne by done | |]);
    (destruct (a !! "tags") eqn:E;
     [by rewrite lookup_insert_eq | by rewrite lookup_fmap, E]).
Qed.

Lemma normalized_created a v d :
  a !! "created" = Some v -> Tw5Mixin.string_to_date v = Ok d ->
  normalized a !! "created" = Some (PDate d).
Proof.
  intros Hc Hd. unfold normalized. rewrite Hc. cbn [fmap option_fmap option_map].
  rewrite Hd. apply lookup_insert_eq.
Qed.

(** The constructor call fails exactly on a keyword named [self] or
    [content]. *)
Lemma new_normalized c a :
  new c (normalized a) =
  if bool_decide (a !! "self" = None) && bool_decide (a !! "content" = None)
  then Ok (init c
             (default PNone (normalized a !! "title"))
             (default PNone (normalized a !! "tags"))
             (default PNone (normalized a !! "created"))
             (default PNone (normalized a !! "modified"))
             (default (PStr "text/vnd.tiddlywiki") (normalized a !! "type"))
             (foldr delete (normalized a) keyword_params))
  else Err TypeError.
Proof.
  unfold new. rewrite !normalized_lookup by done.
  destruct (a !! "self"), (a !! "content"); done.
Qed.

(** The loop body yields only on a block that satisfies the inclusion
    rules, and skips only a block that does not. *)
Lemma loop_body_Yielded m t :
  loop_body m = Yielded t -> satisfies_inclusion (attributes m) = true.
Proof.
  rewrite loop_body_cases. cbn zeta. unfold satisfies_inclusion, parses.
  destruct (match attributes m !! "modified" with
            | Some v => _
            | None => None
            end); [done |].
  destruct (attributes m !! "created") as [vc|]; [| done].
  destruct (Tw5Mixin.string_to_date vc) as [dc|[]]; [| done..].
  destruct (attributes m !! "title") as [t'|]; [| done].
  by destruct (startswith t' "$:/").
Qed.

Lemma loop_body_Skipped m :
  loop_body m = Skipped -> satisfies_inclusion (attributes m) = false.
Proof.
  rewrite loop_body_cases. cbn zeta. unfold satisfies_inclusion, parses.
  destruct (match attributes m !! "modified" with
            | Some v => _
            | None => None
            end); [done |].
  destruct (attributes m !! "created") as [vc|]; [| done].
  destruct (Tw5Mixin.string_to_date vc) as [dc|[]]; [| done..].
  destruct (attributes m !! "title") as [t'|]; [| done].
  destruct (startswith t' "$:/"); [done |].
  by destruct (new _ _).
Qed.

(** The keyword arguments that reach [**kwargs]. *)
Lemma kwargs_lookup (attr : dict) k :
  foldr delete attr keyword_params !! k =
  if bool_decide (k ∈ keyword_params) then None else attr !! k.
Proof.
  unfold keyword_params. cbn [foldr]. rewrite !lookup_delete.
  repeat (destruct (decide _) as [<-|?];
          [by rewrite bool_decide_eq_true_2
             by (rewrite !elem_of_cons; auto 10) |]).
  rewrite bool_decide_eq_false_2; [done |].
  rewrite !elem_of_cons, elem_of_nil.
  intros [?|[?|[?|[?|[?|[]]]]]]; congruence.
Qed.

(** The record the loop body yields. *)
Lemma loop_body_record m t :
  loop_body m = Yielded t ->
  t = init (PStr (group m "content"))
        (default PNone (normalized (attributes m) !! "title"))
        (default PNone (normalized (attributes m) !! "tags"))
        (default PNone (normalized (attributes m) !! "created"))
        (default PNone (normalized (attributes m) !! "modified"))
        (default (PStr "text/vnd.tiddlywiki")
                 (normalized (attributes m) !! "type"))
        (foldr delete (normalized (attributes m)) keyword_params)
  /\ attributes m !! "content" = None.
Proof.
  rewrite loop_body_cases. cbn zeta. rewrite new_normalized.
  destruct (match attributes m !! "modified" with
            | Some v => _
            | None => None
            end); [done |].
  destruct (attributes m !! "created") as [vc|]; [| done].
  destruct (Tw5Mixin.string_to_date vc) as [dc|[]]; [| done..].
  destruct (attributes m !! "title") as [t'|]; [| done].
  destruct (startswith t' "$:/"); [done |].
  destruct (bool_decide (attributes m !! "self" = None)); [| done].
  case_bool_decide; [| done]. cbn [andb]. by intros [= <-].
Qed.

(** A field that [**kwargs] does not name keeps the value [__init__]
    gave it. *)
Lemma init_lookup_content c ti ta cr mo ty (kw : dict) :
  kw !! "content" = None ->
  init c ti ta cr mo ty kw !! "content" = Some c.
Proof. intros H. unfold init. by rewrite lookup_union_r. Qed.

Lemma init_lookup_title c ti ta cr mo ty (kw : dict) :
  kw !! "title" = None ->
  init c ti ta cr mo ty kw !! "title" = Some ti.
Proof. intros H. unfold init. by rewrite lookup_union_r. Qed.

Lemma init_lookup_tags c ti ta cr mo ty (kw : dict) :
  kw !! "tags" = None ->
  init c ti ta cr mo ty kw !! "tags"
  = Some (match ta with PNone => PList [] | _ => ta end).
Proof. intros H. unfold init. by rewrite lookup_union_r. Qed.

Lemma init_lookup_created c ti ta cr mo ty (kw : dict) :
  kw !! "created" = None ->
  init c ti ta cr mo ty kw !! "created" = Some cr.
Proof. intros H. unfold init. by rewrite lookup_union_r. Qed.

(** A keyword that reaches [**kwargs] becomes an instance attribute. *)
Lemma init_lookup_kwargs c ti ta cr mo ty (kw : dict) k v :
  kw !! k = Some v ->
  init c ti ta cr mo ty kw !! k = Some v.
Proof. intros H. unfold init. by apply lookup_union_Some_l. Qed.

(** A name that is neither a field nor a keyword is not an attribute. *)
Lemma init_lookup_other c ti ta cr mo ty (kw : dict) k :
  kw !! k = None ->
  k ∉ ["content"; "title"; "tags"; "created"; "modified"; "type_"] ->
  init c ti ta cr mo ty kw !! k = None.
Proof.
  intros H Hk. rewrite !elem_of_cons, elem_of_nil in Hk.
  unfold init. rewrite lookup_union_r by done.
  rewrite !lookup_insert_ne; [done | intros <-; apply Hk; auto 10..].
Qed.

End LoopBody.

(** ** The generator *)

Section Generator.

Import Re Tiddler.

Context {helpers : Tw5Mixin.Helpers}.

Lemma run_app_clean pre ms :
  escapes (run pre) = None ->
  yields (run (pre ++ ms)) = (yields (run pre) ++ yields (run ms))%list
  /\ escapes (run (pre ++ ms)) = escapes (run ms).
Proof.
  induction pre as [|m pre IH]; [done |]. cbn [run app].
  destruct (loop_body m); cbn [yields escapes]; [| done | done].
  intros H. destruct (IH H) as [-> ->]. done.
Qed.

(** A block on which the loop body raises ends the scan: some exception
    escapes, and when no earlier block raises it is the exception of that
    block, and nothing is yielded from that block on. *)
Lemma run_raised pre m post e :
  loop_body m = Raised e ->
  (exists e', escapes (run (pre ++ m :: post)) = Some e')
  /\ (escapes (run pre) = None ->
      escapes (run (pre ++ m :: post)) = Some e
      /\ yields (run (pre ++ m :: post)) = yields (run pre)).
Proof.
  intros Hm. split.
  - induction pre as [|m' pre IH]; cbn [run app].
    + rewrite Hm. by eexists.
    + destruct (loop_body m'); cbn [escapes]; [done | done | by eexists].
  - intros Hpre. destruct (run_app_clean pre (m :: post) Hpre) as [-> ->].
    cbn [run]. rewrite Hm. cbn [yields escapes]. by rewrite app_nil_r.
Qed.

(** Every yielded record is the record of some block. *)
Lemma yields_run ms t :
  t ∈ yields (run ms) -> exists m, m ∈ ms /\ loop_body m = Yielded t.
Proof.
  induction ms as [|m ms IH]; cbn [run yields]; [by intros ?%elem_of_nil |].
  destruct (loop_body m) as [t'| |e] eqn:E; cbn [yields].
  - intros [->|H]%elem_of_cons.
    + exists m. split; [left | done].
    + destruct (IH H) as (m' & ? & ?). exists m'. split; [by right | done].
  - intros H. destruct (IH H) as (m' & ? & ?). exists m'.
    split; [by right | done].
  - by intros ?%elem_of_nil.
Qed.

(** A scan that raises nothing yields the records of the blocks that
    satisfy the inclusion rules, in order. *)
Lemma run_quiet ms :
  escapes (run ms) = None ->
  Forall2 (fun t m => loop_body m = Yielded t)
    (yields (run ms))
    (List.filter (fun m => satisfies_inclusion (attributes m)) ms).
Proof.
  induction ms as [|m ms IH]; cbn [run List.filter]; [constructor |].
  destruct (loop_body m) as [t| |e] eqn:E; cbn [yields escapes].
  - rewrite (loop_body_Yielded _ _ E). intros Hq. constructor; [done |].
    by apply IH.
  - by rewrite (loop_body_Skipped _ E).
  - done.
Qed.

Lemma filter_all {A} (f : A -> bool) (l : list A) :
  forallb f l = true -> List.filter f l = l.
Proof.
  induction l as [|x l IH]; cbn [forallb List.filter]; [done |].
  intros [-> H]%andb_true_iff. by rewrite IH.
Qed.

(** The title of a yielded record is the title attribute of its block, and
    does not begin with the system prefix; its [created] is a timestamp. *)
Lemma loop_body_title m t :
  loop_body m = Yielded t ->
  (exists title, attributes m !! "title" = Some title
                 /\ t !! "title" = Some (PStr title)
                 /\ startswith title "$:/" = false)
  /\ exists d, t !! "created" = Some (PDate d).
Proof.
  intros Hy. pose proof (loop_body_Yielded _ _ Hy) as Hs.
  destruct (loop_body_record _ _ Hy) as [-> _].
  unfold satisfies_inclusion in Hs. apply andb_true_iff in Hs as [Hc Hs].
  split.
  - destruct (attributes m !! "title") as [title|] eqn:E; [| done].
    exists title. split; [done |]. split.
    + rewrite init_lookup_title by (by rewrite kwargs_lookup).
      rewrite normalized_lookup, E by done. done.
    + by destruct (startswith title "$:/").
  - destruct (attributes m !! "created") as [v|] eqn:E; [| done].
    unfold parses in Hc.
    destruct (Tw5Mixin.string_to_date v) as [d|] eqn:Ed; [| done].
    exists d. rewrite init_lookup_created by (by rewrite kwargs_lookup).
    by rewrite (normalized_created _ _ _ E Ed).
Qed.

End Generator.

(** * Properties of the specification *)

Import Re Tiddler Examples.

Lemma finditer_ordered buffer :
  StronglySorted (fun m1 m2 => (m_end m1 <= m_start m2)%nat)
    (Re.finditer RE_TIDDLER buffer).
Proof. apply (blocks_at_ordered 0 buffer), finditer_blocks_at. Qed.

(** C1 (amended).  On every buffer on which [finditer] raises nothing, it
    yields, in source order, exactly the records of the matched blocks
    that satisfy the inclusion rules, and when all N blocks satisfy them
    it yields N records.  On every buffer, the matches lie one after the
    other, and every yielded record has a title that does not begin with
    "$:/" and a timestamp as [created]. *)
Theorem finditer_inclusion {helpers : Tw5Mixin.Helpers} buffer :
  (escapes (finditer buffer) = None ->
   Forall2 (fun t m => loop_body m = Yielded t)
     (yields (finditer buffer))
     (List.filter (fun m => satisfies_inclusion (attributes m))
                  (Re.finditer RE_TIDDLER buffer))
   /\ (forallb (fun m => satisfies_inclusion (attributes m))
               (Re.finditer RE_TIDDLER buffer) = true ->
       length (yields (finditer buffer))
       = length (Re.finditer RE_TIDDLER buffer)))
  /\ StronglySorted (fun m1 m2 => (m_end m1 <= m_start m2)%nat)
       (Re.finditer RE_TIDDLER buffer)
  /\ Forall (fun t => (exists title, t !! "title" = Some (PStr title)
                                     /\ startswith title "$:/" = false)
                      /\ exists d, t !! "created" = Some (PDate d))
       (yields (finditer buffer)).
Proof.
  unfold finditer. split; [| split].
  - intros Hq. pose proof (run_quiet _ Hq) as Hy.
    split; [done |]. intros Hall. rewrite (filter_all _ _ Hall) in Hy.
    by apply Forall2_length in Hy.
  - apply finditer_ordered.
  - apply Forall_forall. intros t Ht.
    destruct (yields_run _ _ Ht) as (m & _ & Hm).
    destruct (loop_body_title _ _ Hm) as [(title & _ & ? & ?) ?].
    split; [by exists title | done].
Qed.

Lemma finditer_inclusion_witness :
  escapes (finditer (sample ++ system ++ plain)) = None
  /\ length (yields (finditer (sample ++ system ++ plain))) = 2%nat
  /\ length (yields (finditer (sample ++ plain)))
     = length (Re.finditer RE_TIDDLER (sample ++ plain)).
Proof.
  assert (Hq : escapes (finditer (sample ++ system ++ plain)) = None)
    by (vm_compute; exact eq_refl).
  split; [exact Hq |].
  destruct (finditer_inclusion (sample ++ system ++ plain)) as (Hy & _).
  split.
  - destruct (Hy Hq) as [Hf _]. apply Forall2_length in Hf. rewrite Hf.
    vm_compute. exact eq_refl.
  - destruct (finditer_inclusion (sample ++ plain)) as (Hy' & _).
    destruct Hy' as [_ Hn]; [vm_compute; exact eq_refl |].
    apply Hn. vm_compute. exact eq_refl.
Defined.

(** C1 as stated fails: both blocks of this buffer satisfy the inclusion
    rules, and no record is yielded. *)
Lemma finditer_inclusion_counterexample :
  let ms := Re.finditer RE_TIDDLER (content_attribute ++ plain) in
  length ms = 2%nat
  /\ forallb (fun m => satisfies_inclusion (attributes m)) ms = true
  /\ yields (finditer (content_attribute ++ plain)) = [].
Proof. vm_compute. repeat split. Qed.

(** The scan at a block on which the loop body raises. *)
Lemma finditer_raised {helpers : Tw5Mixin.Helpers} buffer i m e :
  Re.finditer RE_TIDDLER buffer !! i = Some m ->
  loop_body m = Raised e ->
  (exists e', escapes (finditer buffer) = Some e')
  /\ (escapes (run (take i (Re.finditer RE_TIDDLER buffer))) = None ->
      escapes (finditer buffer) = Some e
      /\ yields (finditer buffer)
         = yields (run (take i (Re.finditer RE_TIDDLER buffer)))).
Proof.
  intros Hi Hm. unfold finditer.
  pose proof (run_raised (take i (Re.finditer RE_TIDDLER buffer)) m
                (drop (S i) (Re.finditer RE_TIDDLER buffer)) e Hm) as H.
  by rewrite (take_drop_middle _ _ _ Hi) in H.
Qed.

(** C4.  On a buffer with no record block [parse_from_string] returns
    [None], without raising; on a buffer whose extraction sequence is not
    empty it returns the first record yielded. *)
Theorem parse_from_string_first {helpers : Tw5Mixin.Helpers} buffer :
  (Re.finditer RE_TIDDLER buffer = [] -> parse_from_string buffer = Ok None)
  /\ (forall t,
        head (yields (finditer buffer)) = Some t ->
        parse_from_string buffer = Ok (Some t)).
Proof.
  unfold parse_from_string, finditer. split.
  - by intros ->.
  - intros t. destruct (run _); cbn [yields head]; [| done | done].
    by intros [= ->].
Qed.

Lemma parse_from_string_first_witness :
  (Re.finditer RE_TIDDLER "<div>no tiddler here</div>" = []
   /\ parse_from_string "<div>no tiddler here</div>" = Ok None)
  /\ (head (yields (finditer (sample ++ plain))) = Some (first_tiddler sample)
      /\ parse_from_string (sample ++ plain) = Ok (Some (first_tiddler sample))).
Proof.
  split.
  - split; [vm_compute; exact eq_refl |].
    apply (proj1 (parse_from_string_first _)). vm_compute. exact eq_refl.
  - assert (H : head (yields (finditer (sample ++ plain)))
                = Some (first_tiddler sample))
      by (vm_compute; exact eq_refl).
    split; [exact H |].
    exact (proj2 (parse_from_string_first _) _ H).
Defined.

Lemma loop_body_content_tags {helpers : Tw5Mixin.Helpers} m t :
  loop_body m = Yielded t ->
  t !! "content" = Some (PStr (group m "content"))
  /\ exists l, t !! "tags" = Some (PList l)
               /\ (attributes m !! "tags" = None -> l = []).
Proof.
  intros H. destruct (loop_body_record _ _ H) as [-> Hc]. split.
  - apply init_lookup_content. rewrite kwargs_lookup.
    rewrite normalized_lookup, Hc by done. done.
  - rewrite init_lookup_tags by (by rewrite kwargs_lookup).
    rewrite normalized_tags.
    destruct (attributes m !! "tags") as [v|]; cbn [fmap option_fmap option_map default];
      eexists; (split; [reflexivity |]); done.
Qed.

(** C6.  Every record [finditer] yields is the record of a matched block:
    its [content] is the content string of the block and its [tags] is a
    list, the empty list when the block has no [tags] attribute.  The
    constructor never leaves [tags] at [None]. *)
Theorem constructed_record_content_tags {helpers : Tw5Mixin.Helpers} buffer i t :
  yields (finditer buffer) !! i = Some t ->
  (exists m, m ∈ Re.finditer RE_TIDDLER buffer
             /\ loop_body m = Yielded t
             /\ t !! "content" = Some (PStr (group m "content"))
             /\ exists l, t !! "tags" = Some (PList l)
                          /\ (attributes m !! "tags" = None -> l = []))
  /\ (forall c ti ta cr mo ty (kw : dict),
        kw !! "tags" = None ->
        exists v, init c ti ta cr mo ty kw !! "tags" = Some v /\ v <> PNone).
Proof.
  intros Ht%list_elem_of_lookup_2. split.
  - destruct (yields_run _ _ Ht) as (m & Hin & Hm). exists m.
    split; [done |]. split; [done |]. by apply loop_body_content_tags.
  - intros c ti ta cr mo ty kw Hkw. rewrite init_lookup_tags by done.
    eexists. split; [reflexivity |]. by destruct ta.
Qed.

Lemma constructed_record_content_tags_witness :
  yields (finditer (sample ++ plain)) !! 1%nat = Some (first_tiddler plain)
  /\ exists c l, first_tiddler plain !! "content" = Some (PStr c)
                 /\ first_tiddler plain !! "tags" = Some (PList l).
Proof.
  assert (H : yields (finditer (sample ++ plain)) !! 1%nat
              = Some (first_tiddler plain))
    by (vm_compute; exact eq_refl).
  split; [exact H |].
  destruct (constructed_record_content_tags _ _ _ H)
    as [(m & _ & _ & Hc & l & Hl & _) _].
  exists (group m "content"), l. by split.
Defined.

Lemma fold_left_insert_last (ms : list Match) (acc : gmap string string) k :
  fold_left (fun attr m => <[group m "key" := group m "value"]> attr) ms acc
  !! k
  = match last_value k (map (fun m => (group m "key", group m "value")) ms) with
    | Some w => Some w
    | None => acc !! k
    end.
Proof.
  revert acc. induction ms as [|m ms IH]; intros acc; cbn [fold_left map last_value];
    [done |].
  rewrite IH. destruct (last_value k _); [done |].
  destruct (String.eqb_spec k (group m "key")) as [->|Hne].
  - by rewrite lookup_insert_eq.
  - by rewrite lookup_insert_ne.
Qed.

(** C7.  For every options string, the mapping built by the tokenizer
    holds, for every key, the value of the last pair [RE_OPTION] finds
    with that key, and nothing for a key it does not find.  On the text of
    a sequence of well-formed attributes the pairs found are these
    attributes, so a repeated key maps to the value of its last occurrence
    in the text; fragments that are not attributes are passed over. *)
Theorem tokenize_last_occurrence options k :
  tokenize options !! k = last_value k (option_pairs options)
  /\ (forall kvs,
        forallb well_formed kvs = true ->
        option_pairs (attributes_text kvs) = kvs
        /\ tokenize (attributes_text kvs) !! k = last_value k kvs)
  /\ (option_pairs repeated_options = [("a", "1"); ("b", "2"); ("a", "4")]
      /\ tokenize repeated_options !! "a" = Some "4"
      /\ tokenize repeated_options !! "b" = Some "2"
      /\ tokenize repeated_options !! "c" = None
      /\ tokenize repeated_options !! "junk" = None).
Proof.
  assert (H : forall o, tokenize o !! k = last_value k (option_pairs o)).
  { intros o. unfold tokenize, option_pairs. rewrite fold_left_insert_last.
    by destruct (last_value k _). }
  split; [apply H |]. split.
  - intros kvs Hkvs.
    assert (Hp : option_pairs (attributes_text kvs) = kvs)
      by apply (scan_attributes kvs EmptyString Hkvs).
    split; [done |]. by rewrite H, Hp.
  - vm_compute. repeat split.
Qed.

Lemma tokenize_last_occurrence_witness :
  let kvs := [("title", "one"); ("tags", "x y"); ("title", "two")] in
  forallb well_formed kvs = true
  /\ option_pairs (attributes_text kvs) = kvs
  /\ tokenize (attributes_text kvs) !! "title" = Some "two".
Proof.
  intros kvs. split; [vm_compute; exact eq_refl |].
  destruct (tokenize_last_occurrence EmptyString "title") as (_ & H & _).
  destruct (H kvs) as [H1 H2]; [vm_compute; exact eq_refl |].
  split; [exact H1 |]. rewrite H2. vm_compute. exact eq_refl.
Defined.

Lemma loop_body_kwargs {helpers : Tw5Mixin.Helpers} m t k v :
  loop_body m = Yielded t ->
  attributes m !! k = Some v ->
  k ∉ keyword_params ->
  t !! k = Some (PStr v).
Proof.
  intros H Hk Hnot. destruct (loop_body_record _ _ H) as [-> _].
  apply init_lookup_kwargs. rewrite kwargs_lookup.
  rewrite bool_decide_eq_false_2 by done.
  unfold keyword_params in Hnot.
  rewrite !elem_of_cons, elem_of_nil in Hnot.
  rewrite normalized_lookup, Hk; [done | intros ->; apply Hnot; auto 10..].
Qed.

Lemma loop_body_no_field {helpers : Tw5Mixin.Helpers} m t k :
  loop_body m = Yielded t ->
  attributes m !! k = None ->
  k ∉ ["content"; "title"; "tags"; "created"; "modified"; "type_"] ->
  t !! k = None.
Proof.
  intros H Hk Hnot. destruct (loop_body_record _ _ H) as [-> _].
  apply init_lookup_other; [| done]. rewrite kwargs_lookup.
  case_bool_decide as Hkw; [done |].
  rewrite !elem_of_cons, elem_of_nil in Hnot.
  rewrite normalized_lookup, Hk; [done | intros ->; apply Hnot; auto 10..].
Qed.

(** C8 (amended).  On every record [finditer] yields, every attribute of
    the block whose key is not a keyword parameter of the constructor
    (title, tags, created, modified, type) is an instance attribute of
    that name, holding the attribute value verbatim: the constructor puts
    it there through [self.__dict__.update(kwargs)].  The record has no
    [extra_attributes] field unless the block has an attribute of that
    name. *)
Theorem unknown_attributes_become_fields {helpers : Tw5Mixin.Helpers} buffer i t :
  yields (finditer buffer) !! i = Some t ->
  exists m, m ∈ Re.finditer RE_TIDDLER buffer
            /\ loop_body m = Yielded t
            /\ (forall k v, attributes m !! k = Some v ->
                            k ∉ keyword_params ->
                            t !! k = Some (PStr v))
            /\ (attributes m !! "extra_attributes" = None ->
                t !! "extra_attributes" = None).
Proof.
  intros Ht%list_elem_of_lookup_2.
  destruct (yields_run _ _ Ht) as (m & Hin & Hm). exists m.
  split; [done |]. split; [done |]. split.
  - intros k v. by apply loop_body_kwargs.
  - intros Hk. apply (loop_body_no_field m); [done | done |].
    rewrite !elem_of_cons, elem_of_nil. intros [?|[?|[?|[?|[?|[?|[]]]]]]]; done.
Qed.

Lemma unknown_attributes_become_fields_witness :
  yields (finditer (sample ++ plain)) !! 1%nat = Some (first_tiddler plain)
  /\ exists m, m ∈ Re.finditer RE_TIDDLER (sample ++ plain)
               /\ forall k v, attributes m !! k = Some v ->
                              k ∉ keyword_params ->
                              first_tiddler plain !! k = Some (PStr v).
Proof.
  assert (H : yields (finditer (sample ++ plain)) !! 1%nat
              = Some (first_tiddler plain))
    by (vm_compute; exact eq_refl).
  split; [exact H |].
  destruct (unknown_attributes_become_fields _ _ _ H)
    as (m & Hin & _ & Hkw & _).
  exists m. by split.
Defined.

(** C8 as stated fails: the record of this block has the unrecognized
    attribute [color] as a field of its own and has no [extra_attributes]
    field. *)
Lemma unknown_attributes_counterexample :
  length (yields (finditer plain)) = 1%nat
  /\ attributes (nth_block plain 0) !! "color" = Some "red"
  /\ first_tiddler plain !! "extra_attributes" = None
  /\ first_tiddler plain !! "color" = Some (PStr "red").
Proof. vm_compute. repeat split. Qed.

Lemma loop_body_content_key {helpers : Tw5Mixin.Helpers} m v :
  attributes m !! "content" = Some v ->
  satisfies_inclusion (attributes m) = true ->
  match attributes m !! "modified" with
  | Some w => parses w
  | None => true
  end = true ->
  loop_body m = Raised TypeError.
Proof.
  intros Hc Hs Hm. rewrite loop_body_cases. cbn zeta.
  rewrite new_normalized, Hc. unfold satisfies_inclusion, parses in Hs, Hm.
  destruct (attributes m !! "modified") as [w|];
    [destruct (Tw5Mixin.string_to_date w); [| done] |];
    (destruct (attributes m !! "created") as [vc|]; [| done]);
    (destruct (Tw5Mixin.string_to_date vc); [| done]);
    (destruct (attributes m !! "title") as [ti|]; [| done]);
    (destruct (startswith ti "$:/"); [done |]);
    by rewrite andb_false_r.
Qed.

(** C10.  A block with an attribute named [content] that satisfies the
    inclusion rules (and whose [modified], if present, is a timestamp)
    makes the constructor call raise [TypeError]: an exception escapes the
    scan, and when no earlier block raises it is that [TypeError] and the
    block is neither yielded nor skipped. *)
Theorem content_attribute_raises {helpers : Tw5Mixin.Helpers} buffer i m v :
  Re.finditer RE_TIDDLER buffer !! i = Some m ->
  attributes m !! "content" = Some v ->
  satisfies_inclusion (attributes m) = true ->
  match attributes m !! "modified" with
  | Some w => parses w
  | None => true
  end = true ->
  loop_body m = Raised TypeError
  /\ (exists e, escapes (finditer buffer) = Some e)
  /\ (escapes (run (take i (Re.finditer RE_TIDDLER buffer))) = None ->
      escapes (finditer buffer) = Some TypeError
      /\ yields (finditer buffer)
         = yields (run (take i (Re.finditer RE_TIDDLER buffer)))).
Proof.
  intros Hi Hc Hs Hm. pose proof (loop_body_content_key _ _ Hc Hs Hm) as Hb.
  split; [done |]. by apply (finditer_raised buffer i m).
Qed.

Lemma content_attribute_raises_witness :
  let buffer := content_attribute ++ plain in
  Re.finditer RE_TIDDLER buffer !! 0%nat = Some (nth_block buffer 0)
  /\ attributes (nth_block buffer 0) !! "content" = Some "x"
  /\ satisfies_inclusion (attributes (nth_block buffer 0)) = true
  /\ escapes (finditer buffer) = Some TypeError
  /\ length (yields (finditer buffer)) = 0%nat.
Proof.
  intros buffer.
  split; [vm_compute; exact eq_refl |].
  split; [vm_compute; exact eq_refl |]. split; [vm_compute; exact eq_refl |].
  destruct (content_attribute_raises buffer 0 (nth_block buffer 0) "x")
    as (_ & _ & H);
    [vm_compute; exact eq_refl | vm_compute; exact eq_refl
     | vm_compute; exact eq_refl | vm_compute; exact eq_refl |].
  destruct H as [H1 H2]; [vm_compute; exact eq_refl |].
  split; [exact H1 |]. rewrite H2. vm_compute. exact eq_refl.
Defined.

(** * Further properties *)

Import Matches.

(** ** The record matcher on arbitrary buffers *)

Lemma find_first_before l s a r :
  find_first l s = Some (a, r) -> (0 < String.length l)%nat ->
  find_first l a = None.
Proof.
  intros Hf Hl. destruct (find_first l a) as [[x y]|] eqn:E; [| done].
  apply find_first_split in E. pose proof (find_first_split _ _ _ _ Hf) as Hs.
  assert (Hle : (String.length a <= String.length x)%nat).
  { apply (find_first_least _ _ _ _ x (y ++ l ++ r) Hf).
    rewrite Hs, E. by rewrite !str_app_assoc. }
  rewrite E, !str_length_app in Hle. lia.
Qed.

Lemma split_block_options s o c r :
  split_block s = Some (o, c, r) -> find_first pre_open o = None.
Proof.
  unfold split_block.
  destruct (strip_prefix div_open s) as [s1|]; [| discriminate].
  destruct (find_first pre_open s1) as [[o' s2]|] eqn:E2; [| discriminate].
  destruct (find_first block_close s2) as [[c' s3]|]; [| discriminate].
  intros [= <- <- <-]. apply (find_first_before _ _ _ _ E2). simpl. lia.
Qed.

Lemma blocks_at_group0 pos s ms :
  blocks_at pos s ms ->
  forall pre, String.length pre = pos ->
  Forall (fun m =>
            group0 (pre ++ s) m
            = block_text (group m "options") (group m "content")
            /\ (m_end m <= String.length (pre ++ s))%nat
            /\ find_first pre_open (group m "options") = None
            /\ find_first block_close (group m "content") = None) ms.
Proof.
  induction 1 as [pos|pos x s ms E Hb IH|pos s o c r ms E Hb IH];
    intros pre Hpre.
  - constructor.
  - replace (pre ++ String x s) with ((pre ++ String x EmptyString) ++ s)
      by (by rewrite str_app_assoc).
    apply IH. rewrite str_length_app. simpl. lia.
  - pose proof (split_block_Some _ _ _ _ E) as Hs. subst s pos. constructor.
    + change (group (block_match (String.length pre) o c) "options") with o.
      change (group (block_match (String.length pre) o c) "content") with c.
      split; [| split; [| split]].
      * unfold group0. cbn [m_start m_end block_match].
        apply slice_mid; [done | apply block_end_shift].
      * cbn [m_end block_match].
        rewrite block_end_shift, !str_length_app. lia.
      * apply (split_block_options _ _ _ _ E).
      * apply (split_block_content _ _ _ _ E).
    + replace (pre ++ block_text o c ++ r) with ((pre ++ block_text o c) ++ r)
        by (by rewrite str_app_assoc).
      apply IH. by rewrite str_length_app, block_end_shift.
Qed.

Lemma substring_length s : forall a n,
  (a + n <= String.length s)%nat -> String.length (substring a n s) = n.
Proof.
  induction s as [|x s IH]; intros [|a] [|n]; simpl; intros H; try lia;
    try done.
  - f_equal. apply (IH 0%nat). simpl. lia.
  - apply IH. lia.
  - apply IH. lia.
Qed.

(** X1.  The text that a match of [RE_TIDDLER] spans is the opening
    marker, the options group, the inner marker, the content group and the
    closing marker, in this order; the match ends inside the buffer. *)
Theorem match_text_from_groups buffer i m :
  Re.finditer RE_TIDDLER buffer !! i = Some m ->
  group0 buffer m
  = "<div" ++ group m "options" ++ ">" ++ nl ++ "<pre>"
    ++ group m "content" ++ "</pre>" ++ nl ++ "</div>"
  /\ (m_start m < m_end m <= String.length buffer)%nat
  /\ (m_end m - m_start m
      = 24 + String.length (group m "options")
        + String.length (group m "content"))%nat.
Proof.
  intros Hi%list_elem_of_lookup_2.
  pose proof (blocks_at_group0 0 buffer _ (finditer_blocks_at buffer)
                EmptyString eq_refl) as H.
  rewrite Forall_forall in H. destruct (H _ Hi) as (Hg & Hle & _).
  destruct (blocks_at_ordered 0 buffer _ (finditer_blocks_at buffer)) as [Ho _].
  rewrite Forall_forall in Ho. destruct (Ho _ Hi) as [Hlt _].
  cbn [String.append] in Hg, Hle. split; [exact Hg |]. split; [lia |].
  assert (Hlen : String.length (group0 buffer m)
                 = (24 + String.length (group m "options")
                    + String.length (group m "content"))%nat).
  { rewrite Hg. unfold block_text. rewrite !str_length_app. simpl. lia. }
  rewrite <- Hlen. unfold group0, slice. cbn [fst snd].
  symmetry. apply substring_length. lia.
Qed.

Lemma match_text_from_groups_witness :
  Re.finditer RE_TIDDLER (markup ++ plain) !! 1%nat
  = Some (nth_block (markup ++ plain) 1)
  /\ group0 (markup ++ plain) (nth_block (markup ++ plain) 1) = plain.
Proof.
  assert (H : Re.finditer RE_TIDDLER (markup ++ plain) !! 1%nat
              = Some (nth_block (markup ++ plain) 1))
    by (vm_compute; exact eq_refl).
  split; [exact H |].
  destruct (match_text_from_groups _ _ _ H) as [-> _].
  vm_compute. exact eq_refl.
Defined.

(** X2.  Both captures of [RE_TIDDLER] are minimal: in every match the
    options group holds no inner marker and the content group holds no
    closing marker. *)
Theorem captures_are_minimal buffer i m :
  Re.finditer RE_TIDDLER buffer !! i = Some m ->
  find_first (">" ++ nl ++ "<pre>") (group m "options") = None
  /\ find_first ("</pre>" ++ nl ++ "</div>") (group m "content") = None.
Proof.
  intros Hi%list_elem_of_lookup_2.
  pose proof (blocks_at_group0 0 buffer _ (finditer_blocks_at buffer)
                EmptyString eq_refl) as H.
  rewrite Forall_forall in H. by destruct (H _ Hi) as (_ & _ & ? & ?).
Qed.

Lemma captures_are_minimal_witness :
  Re.finditer RE_TIDDLER (markup ++ plain) !! 0%nat
  = Some (nth_block (markup ++ plain) 0)
  /\ find_first "</pre>" (group (nth_block (markup ++ plain) 0) "content")
     <> None
  /\ find_first ("</pre>" ++ nl ++ "</div>")
       (group (nth_block (markup ++ plain) 0) "content") = None.
Proof.
  assert (H : Re.finditer RE_TIDDLER (markup ++ plain) !! 0%nat
              = Some (nth_block (markup ++ plain) 0))
    by (vm_compute; exact eq_refl).
  split; [exact H |]. split; [vm_compute; discriminate |].
  exact (proj2 (captures_are_minimal _ _ _ H)).
Defined.

Lemma blocks_at_functional pos s ms :
  blocks_at pos s ms -> forall ms', blocks_at pos s ms' -> ms = ms'.
Proof.
  induction 1 as [pos|pos x s ms E Hb IH|pos s o c r ms E Hb IH];
    intros ms' H'; inversion H'; subst; try done; try congruence.
  - by apply IH.
  - match goal with
    | H : split_block _ = Some (?o', ?c', ?r') |- _ =>
        rewrite E in H; injection H as <- <- <-
    end.
    f_equal. by apply IH.
Qed.

Lemma finditer_blocks buffer ms :
  blocks_at 0 buffer ms -> Re.finditer RE_TIDDLER buffer = ms.
Proof.
  intros H. apply (blocks_at_functional 0 buffer); [| done].
  apply finditer_blocks_at.
Qed.

Lemma blocks_at_shift d pos s ms :
  blocks_at pos s ms -> blocks_at (pos + d) s (map (shift d) ms).
Proof.
  induction 1 as [pos|pos x s ms E Hb IH|pos s o c r ms E Hb IH]; cbn [map].
  - constructor.
  - by apply blocks_skip.
  - replace (shift d (block_match pos o c)) with (block_match (pos + d) o c)
      by (unfold shift, block_match, block_end; cbn; f_equal; lia).
    eapply blocks_found; [done |].
    replace (block_end (pos + d) o c) with (block_end pos o c + d)%nat
      by (unfold block_end; lia).
    done.
Qed.

Lemma run_shift {helpers : Tw5Mixin.Helpers} d ms : run (map (shift d) ms) = run ms.
Proof.
  induction ms as [|m ms IH]; cbn [map run]; [done |].
  change (loop_body (shift d m)) with (loop_body m). by rewrite IH.
Qed.

Lemma split_block_literals s o c r :
  split_block s = Some (o, c, r) ->
  is_Some (find_first div_open s)
  /\ is_Some (find_first pre_open s)
  /\ is_Some (find_first block_close s).
Proof.
  intros ->%split_block_Some. unfold block_text.
  assert (H : forall l a b, is_Some (find_first l (a ++ l ++ b))).
  { intros l a b. destruct (find_first l (a ++ l ++ b)) eqn:E; [done |].
    by eapply find_first_None in E. }
  split; [| split].
  - rewrite !str_app_assoc. apply (H div_open EmptyString).
  - rewrite !str_app_assoc.
    replace (div_open ++ o ++ pre_open ++ c ++ block_close ++ r)
      with ((div_open ++ o) ++ pre_open ++ c ++ block_close ++ r)
      by (by rewrite !str_app_assoc).
    apply H.
  - replace ((div_open ++ o ++ pre_open ++ c ++ block_close) ++ r)
      with ((div_open ++ o ++ pre_open ++ c) ++ block_close ++ r)
      by (by rewrite !str_app_assoc).
    apply H.
Qed.

Lemma find_first_None_anywhere l a b :
  find_first l (a ++ b) = None -> find_first l b = None.
Proof. apply find_first_None_suffix. Qed.

Lemma blocks_at_nothing s : forall pos,
  (forall a b, s = a ++ b -> split_block b = None) ->
  blocks_at pos s [].
Proof.
  induction s as [|x s IH]; intros pos H; [constructor |].
  apply blocks_skip; [by apply (H EmptyString) |].
  apply IH. intros a b ->. by apply (H (String x a)).
Qed.

(** X3.  A buffer that lacks one of the three markers holds no record
    block: the matcher finds no match, [finditer] yields nothing and
    [parse_from_string] returns [None], without raising. *)
Theorem no_marker_no_tiddler {helpers : Tw5Mixin.Helpers} buffer :
  find_first "<div" buffer = None
  \/ find_first (">" ++ nl ++ "<pre>") buffer = None
  \/ find_first ("</pre>" ++ nl ++ "</div>") buffer = None ->
  Re.finditer RE_TIDDLER buffer = []
  /\ finditer buffer = StopIteration
  /\ parse_from_string buffer = Ok None.
Proof.
  intros H.
  assert (Hm : Re.finditer RE_TIDDLER buffer = []).
  { apply finditer_blocks, blocks_at_nothing. intros a b ->.
    destruct (split_block b) as [[[o c] r]|] eqn:E; [| done].
    destruct (split_block_literals _ _ _ _ E) as (H1 & H2 & H3).
    destruct H as [H|[H|H]]; apply find_first_None_suffix in H.
    - change "<div" with div_open in H. rewrite H in H1. by destruct H1.
    - change (">" ++ nl ++ "<pre>") with pre_open in H.
      rewrite H in H2. by destruct H2.
    - change ("</pre>" ++ nl ++ "</div>") with block_close in H.
      rewrite H in H3. by destruct H3. }
  unfold parse_from_string, finditer. by rewrite Hm.
Qed.

Lemma no_marker_no_tiddler_witness :
  find_first ("</pre>" ++ nl ++ "</div>")
    ("<div title=" ++ dq ++ "cut" ++ dq ++ ">" ++ nl ++ "<pre>cut off") = None
  /\ parse_from_string
       ("<div title=" ++ dq ++ "cut" ++ dq ++ ">" ++ nl ++ "<pre>cut off")
     = Ok None.
Proof.
  split; [vm_compute; exact eq_refl |].
  apply no_marker_no_tiddler. right. right. vm_compute. exact eq_refl.
Defined.

Lemma finditer_block_prefix o c rest :
  split_block (block_text o c) = Some (o, c, EmptyString) ->
  Re.finditer RE_TIDDLER (block_text o c ++ rest)
  = block_match 0 o c
    :: map (shift (String.length (block_text o c)))
         (Re.finditer RE_TIDDLER rest).
Proof.
  intros E. apply finditer_blocks.
  eapply blocks_found; [apply (split_block_extend _ _ _ _ rest E) |].
  cbn [String.append].
  rewrite <- block_text_length.
  apply (blocks_at_shift (String.length (block_text o c)) 0 rest).
  apply finditer_blocks_at.
Qed.

Lemma run_app {helpers : Tw5Mixin.Helpers} ms1 ms2 : run (ms1 ++ ms2) = chain (run ms1) (run ms2).
Proof.
  induction ms1 as [|m ms1 IH]; cbn [app run chain]; [done |].
  destruct (loop_body m); cbn [chain]; by rewrite ?IH.
Qed.

(** X4.  A record block at the start of a buffer is read on its own: the
    extraction from the block followed by any text is the extraction from
    the block alone, followed, unless it raised, by the extraction from
    that text. *)
Theorem finditer_block_then_rest {helpers : Tw5Mixin.Helpers} b rest :
  is_block b = true ->
  finditer (b ++ rest) = chain (finditer b) (finditer rest).
Proof.
  intros (o & c & E & Hb)%is_block_split.
  rewrite Hb in E. unfold finditer.
  rewrite Hb, (finditer_block_prefix _ _ _ E).
  pose proof (finditer_block_prefix o c EmptyString E) as H1.
  rewrite str_app_nil_r in H1. rewrite H1.
  change (Re.finditer RE_TIDDLER EmptyString) with (@nil Match).
  cbn [map].
  change (block_match 0 o c :: ?l) with ([block_match 0 o c] ++ l)%list.
  by rewrite run_app, run_shift.
Qed.

Lemma finditer_block_then_rest_witness :
  is_block system = true
  /\ finditer (system ++ content_attribute)
     = chain (finditer system) (finditer content_attribute).
Proof.
  split; [vm_compute; exact eq_refl |].
  apply finditer_block_then_rest. vm_compute. exact eq_refl.
Defined.

Lemma blocks_at_leading junk rest ms : forall pos,
  all_chars not_lt junk = true ->
  blocks_at (pos + String.length junk) rest ms ->
  blocks_at pos (junk ++ rest) ms.
Proof.
  induction junk as [|x junk IH]; intros pos; cbn [all_chars String.length].
  - intros _. by rewrite Nat.add_0_r.
  - intros [Hx Hj]%andb_true_iff Hb. cbn [String.append].
    apply blocks_skip.
    + unfold split_block, div_open. cbn [strip_prefix].
      unfold not_lt in Hx. apply negb_true_iff in Hx.
      by rewrite Ascii.eqb_sym, Hx.
    + apply IH; [done |]. by replace (S pos + String.length junk)%nat
        with (pos + S (String.length junk))%nat by lia.
Qed.

(** X5.  Text without an opening angle bracket in front of a buffer
    changes nothing but the offsets: the matches are those of the buffer,
    moved by the length of the text, and [finditer] yields and raises the
    same. *)
Theorem leading_text_ignored {helpers : Tw5Mixin.Helpers} junk buffer :
  all_chars not_lt junk = true ->
  Re.finditer RE_TIDDLER (junk ++ buffer)
  = map (shift (String.length junk)) (Re.finditer RE_TIDDLER buffer)
  /\ finditer (junk ++ buffer) = finditer buffer.
Proof.
  intros Hj.
  assert (Hm : Re.finditer RE_TIDDLER (junk ++ buffer)
               = map (shift (String.length junk))
                     (Re.finditer RE_TIDDLER buffer)).
  { apply finditer_blocks, blocks_at_leading; [done |].
    apply (blocks_at_shift (String.length junk) 0), finditer_blocks_at. }
  split; [done |]. unfold finditer. by rewrite Hm, run_shift.
Qed.

Lemma leading_text_ignored_witness :
  all_chars not_lt "Exported tiddlers: " = true
  /\ finditer ("Exported tiddlers: " ++ plain) = finditer plain.
Proof.
  split; [vm_compute; exact eq_refl |].
  apply leading_text_ignored. vm_compute. exact eq_refl.
Defined.

(** ** The attribute tokenizer on arbitrary options strings *)

Lemma lazy_star_Some {R : Type} ok (K : string -> nat -> option R) s : forall pos r,
  lazy_star ok K s pos = Some r ->
  exists a b, s = a ++ b /\ all_chars ok a = true
              /\ K b (pos + String.length a) = Some r.
Proof.
  induction s as [|c s IH]; intros pos r; cbn [lazy_star].
  - destruct (K EmptyString pos) eqn:E; [| done]. intros [= <-].
    exists EmptyString, EmptyString. by rewrite Nat.add_0_r.
  - destruct (K (String c s) pos) eqn:E.
    + intros [= <-]. exists EmptyString, (String c s). by rewrite Nat.add_0_r.
    + destruct (ok c) eqn:Hc; [| done]. intros (a & b & -> & Ha & Hk)%IH.
      exists (String c a), b. cbn [all_chars String.length]. rewrite Hc, Ha.
      split; [done |]. split; [done |]. rewrite <- Hk. f_equal. lia.
Qed.

Lemma greedy_star_Some {R : Type} ok (K : string -> nat -> option R) s : forall pos r,
  greedy_star ok K s pos = Some r ->
  exists a b, s = a ++ b /\ all_chars ok a = true
              /\ K b (pos + String.length a) = Some r.
Proof.
  induction s as [|c s IH]; intros pos r; cbn [greedy_star].
  - intros E. exists EmptyString, EmptyString. by rewrite Nat.add_0_r.
  - assert (Hhere : K (String c s) pos = Some r ->
                    exists a b, String c s = a ++ b /\ all_chars ok a = true
                                /\ K b (pos + String.length a) = Some r).
    { intros E. exists EmptyString, (String c s). by rewrite Nat.add_0_r. }
    destruct (ok c) eqn:Hc; [| exact Hhere].
    destruct (greedy_star ok K s (S pos)) eqn:E; [| exact Hhere].
    intros [= <-]. destruct (IH _ _ E) as (a & b & -> & Ha & Hk).
    exists (String c a), b. cbn [all_chars String.length]. rewrite Hc, Ha.
    split; [done |]. split; [done |]. rewrite <- Hk. f_equal. lia.
Qed.

Lemma find_first_quote_free s : forall v r,
  find_first dq s = Some (v, r) -> quote_free v = true.
Proof.
  induction s as [|c s IH]; intros v r; cbn [find_first strip_prefix dq].
  - done.
  - unfold dq. cbn [strip_prefix].
    destruct (Ascii.eqb (ascii_of_nat 34) c) eqn:Hc.
    + by intros [= <- _].
    + fold dq. destruct (find_first dq s) as [[a r']|] eqn:E; [| done].
      intros [= <- <-]. unfold quote_free. cbn [all_chars].
      rewrite Ascii.eqb_sym, Hc. apply (IH _ _ eq_refl).
Qed.

Lemma all_chars_app ok a b :
  all_chars ok (a ++ b) = all_chars ok a && all_chars ok b.
Proof.
  induction a as [|c a IH]; cbn [String.append all_chars]; [done |].
  by rewrite IH, andb_assoc.
Qed.

(** What a match of [RE_OPTION] at the start of [s] looks like. *)
Lemma exec_RE_OPTION_Some s pos e mk :
  exec RE_OPTION no_marks s pos = Some (e, mk) ->
  exists sp k v rest,
    s = sp ++ k ++ ("=" ++ dq) ++ v ++ dq ++ rest
    /\ all_chars is_space sp = true /\ (0 < String.length sp)%nat
    /\ is_key k = true /\ quote_free v = true
    /\ spans mk
       = [("value", (pos + String.length sp + String.length k + 2,
                     pos + String.length sp + String.length k + 2
                     + String.length v));
          ("key", (pos + String.length sp,
                   pos + String.length sp + String.length k))]
    /\ e = (pos + String.length sp + String.length k + 2
            + String.length v + 1)%nat.
Proof.
  unfold RE_OPTION. cbn [exec].
  destruct s as [|c0 s]; [done |]. cbn [in_charset].
  destruct (is_space c0) eqn:Hc0; [| done]. cbn [star].
  intros (sp & s1 & -> & Hsp & H1)%greedy_star_Some.
  cbn [exec] in H1. destruct s1 as [|c1 s1]; [done |]. cbn [in_charset] in H1.
  destruct (is_word c1) eqn:Hc1; [| done]. cbn [star] in H1.
  apply lazy_star_Some in H1 as (k & s2 & -> & Hk & H2).
  cbn [exec] in H2.
  destruct (strip_prefix ("=" ++ dq) s2) as [s3|] eqn:E3; [| done].
  apply strip_prefix_Some in E3 as ->. cbn [star] in H2.
  rewrite (lazy_star_any_literal dq
    (fun _ p1 =>
       Some (p1 + String.length dq,
             close_group "value" p1
               (open_group "value"
                  (S (S pos + String.length sp) + String.length k
                   + String.length ("=" ++ dq))
                  (close_group "key"
                     (S (S pos + String.length sp) + String.length k)
                     (open_group "key" (S pos + String.length sp)
                        no_marks)))))) in H2.
  - destruct (find_first dq s3) as [[v rest]|] eqn:E4; [| done].
    injection H2 as <- <-.
    pose proof (find_first_quote_free _ _ _ E4) as Hv.
    apply find_first_split in E4 as ->.
    exists (String c0 sp), (String c1 k), v, rest.
    change (in_charset SpaceChar) with is_space in Hsp.
    change (in_charset WordChar) with is_word in Hk.
    cbn [String.append all_chars String.length is_key].
    rewrite Hc0, Hsp, Hc1, Hk. rewrite ?str_app_assoc.
    split; [done |]. split; [done |]. split; [lia |].
    split; [done |]. split; [done |].
    change (String.length ("=" ++ dq)) with 2.
    change (String.length dq) with 1.
    split.
    + cbn [close_group open_group opened spans assoc default].
      change (String.eqb "value" "value") with true.
      change (String.eqb "key" "key") with true. cbv iota.
      cbn [from_option id spans no_marks].
      apply (f_equal2 cons);
        [apply (f_equal2 pair); [done | apply (f_equal2 pair); lia] |].
      apply (f_equal2 cons);
        [apply (f_equal2 pair); [done | apply (f_equal2 pair); lia] | done].
    + lia.
  - intros s0 p. by destruct (strip_prefix dq s0).
  - discriminate.
Qed.

(** Every match that the scan reports is a match of the pattern at some
    offset of the subject. *)
Lemma scan_elem p subject s : forall pre skip m,
  subject = pre ++ s ->
  m ∈ scan p subject s (String.length pre) skip ->
  exists pre' s' r,
    subject = pre' ++ s'
    /\ exec p no_marks s' (String.length pre') = Some r
    /\ m = mk_match subject (String.length pre') r.
Proof.
  induction s as [|x s IH]; intros pre skip m Hsub; cbn [scan].
  - rewrite app_nil_r. destruct skip; [| by intros ?%elem_of_nil].
    destruct (exec p no_marks EmptyString (String.length pre)) as [r|] eqn:E;
      [| by intros ?%elem_of_nil].
    intros ->%list_elem_of_singleton. by exists pre, EmptyString, r.
  - assert (Hnext : forall skip',
               m ∈ scan p subject s (S (String.length pre)) skip' ->
               exists pre' s' r,
                 subject = pre' ++ s'
                 /\ exec p no_marks s' (String.length pre') = Some r
                 /\ m = mk_match subject (String.length pre') r).
    { intros skip'.
      replace (S (String.length pre))
        with (String.length (pre ++ String x EmptyString))
        by (rewrite str_length_app; simpl; lia).
      apply IH. by rewrite Hsub, str_app_assoc. }
    destruct skip; [| apply Hnext].
    destruct (exec p no_marks (String x s) (String.length pre)) as [r|] eqn:E;
      [| apply Hnext].
    intros [->|H]%elem_of_cons; [| by apply Hnext in H].
    by exists pre, (String x s), r.
Qed.

(** The groups of every match of [RE_OPTION] are a key and a value, and
    the subject holds white space and a double quote. *)
Lemma option_match_groups options m :
  m ∈ Re.finditer RE_OPTION options ->
  exists k v,
    is_key k = true /\ quote_free v = true
    /\ m_groups m = [("value", v); ("key", k)]
    /\ all_chars not_space options = false
    /\ quote_free options = false.
Proof.
  intros (pre & s & [e mk] & Hsub & He & ->)%(scan_elem _ _ _ EmptyString);
    [| done].
  apply exec_RE_OPTION_Some in He
    as (sp & k & v & rest & -> & Hsp & Hlen & Hk & Hv & Hspans & _).
  exists k, v. split; [done |]. split; [done |]. split; [| split].
  - unfold mk_match. cbn [snd m_groups]. rewrite Hspans, Hsub.
    cbn [map fst snd].
    apply (f_equal2 cons);
      [apply (f_equal2 pair); [done |]
      | apply (f_equal2 cons); [apply (f_equal2 pair); [done |] | done]].
    + replace (pre ++ sp ++ k ++ ("=" ++ dq) ++ v ++ dq ++ rest)
        with ((pre ++ sp ++ k ++ "=" ++ dq) ++ v ++ dq ++ rest)
        by (by rewrite !str_app_assoc).
      apply slice_mid; [| done]. rewrite !str_length_app. simpl. lia.
    + replace (pre ++ sp ++ k ++ ("=" ++ dq) ++ v ++ dq ++ rest)
        with ((pre ++ sp) ++ k ++ ("=" ++ dq) ++ v ++ dq ++ rest)
        by (by rewrite !str_app_assoc).
      apply slice_mid; [| done]. rewrite !str_length_app. lia.
  - rewrite Hsub, !all_chars_app. destruct sp as [|c sp]; [simpl in Hlen; lia |].
    cbn [all_chars] in *. apply andb_true_iff in Hsp as [Hc _].
    unfold not_space at 2. rewrite Hc. cbn [negb andb].
    by rewrite andb_false_r.
  - rewrite Hsub. unfold quote_free. rewrite !all_chars_app.
    cbn [all_chars dq]. rewrite Ascii.eqb_refl. cbn [negb andb].
    by rewrite !andb_false_r.
Qed.

Lemma last_value_elem k l v :
  last_value k l = Some v -> (k, v) ∈ l.
Proof.
  induction l as [|[k' v'] l IH]; cbn [last_value]; [done |].
  destruct (last_value k l) as [w|].
  - intros [= ->]. right. by apply IH.
  - destruct (String.eqb_spec k k') as [->|]; [| done].
    intros [= ->]. left.
Qed.

(** X6.  Whatever the options string, every key of the attribute mapping
    is a non-empty run of word characters and every value is free of double
    quotes. *)
Theorem tokenize_keys_and_values options k v :
  tokenize options !! k = Some v ->
  is_key k = true /\ quote_free v = true.
Proof.
  unfold tokenize. rewrite fold_left_insert_last.
  destruct (last_value k _) as [w|] eqn:E; [| by rewrite lookup_empty].
  intros [= ->]. apply last_value_elem in E.
  apply list_elem_of_fmap in E as (m & Hkv & Hm).
  apply option_match_groups in Hm as (k' & v' & Hk & Hv & Hg & _).
  unfold group in Hkv. rewrite Hg in Hkv. cbn in Hkv.
  by injection Hkv as -> ->.
Qed.

Lemma tokenize_keys_and_values_witness :
  tokenize (" data-x=" ++ dq ++ "1" ++ dq ++ attribute "y_2" "a b")
  !! "y_2" = Some "a b"
  /\ is_key "y_2" = true /\ quote_free "a b" = true
  /\ tokenize (" data-x=" ++ dq ++ "1" ++ dq ++ attribute "y_2" "a b")
     !! "x" = None.
Proof.
  assert (H : tokenize (" data-x=" ++ dq ++ "1" ++ dq ++ attribute "y_2" "a b")
              !! "y_2" = Some "a b") by (vm_compute; exact eq_refl).
  split; [exact H |].
  destruct (tokenize_keys_and_values _ _ _ H) as [Hk Hv].
  split; [exact Hk |]. split; [exact Hv |]. vm_compute. exact eq_refl.
Defined.

(** X7.  An options string without white space, or without a double
    quote, gives the empty attribute mapping. *)
Theorem tokenize_nothing options :
  all_chars not_space options = true \/ quote_free options = true ->
  Re.finditer RE_OPTION options = []
  /\ tokenize options = ∅.
Proof.
  intros H.
  assert (Hm : Re.finditer RE_OPTION options = []).
  { destruct (Re.finditer RE_OPTION options) as [|m ms] eqn:E; [done |].
    assert (Hin : m ∈ Re.finditer RE_OPTION options) by (rewrite E; left).
    apply option_match_groups in Hin as (_ & _ & _ & _ & _ & Hs & Hq).
    destruct H; congruence. }
  split; [done |]. unfold tokenize. by rewrite Hm.
Qed.

Lemma tokenize_nothing_witness :
  all_chars not_space ("title=" ++ dq ++ "x" ++ dq) = true
  /\ tokenize ("title=" ++ dq ++ "x" ++ dq) = ∅
  /\ quote_free " title=x created=1" = true
  /\ tokenize " title=x created=1" = ∅.
Proof.
  split; [vm_compute; exact eq_refl |].
  split; [apply tokenize_nothing; left; vm_compute; exact eq_refl |].
  split; [vm_compute; exact eq_refl |].
  apply tokenize_nothing. right. vm_compute. exact eq_refl.
Defined.

(** ** The fields of the records *)

Lemma init_lookup_modified c ti ta cr mo ty (kw : dict) :
  kw !! "modified" = None ->
  init c ti ta cr mo ty kw !! "modified" = Some mo.
Proof. intros H. unfold init. by rewrite lookup_union_r. Qed.

Lemma init_lookup_type c ti ta cr mo ty (kw : dict) :
  kw !! "type_" = None ->
  init c ti ta cr mo ty kw !! "type_" = Some ty.
Proof. intros H. unfold init. by rewrite lookup_union_r. Qed.

Lemma normalized_modified {helpers : Tw5Mixin.Helpers} a :
  normalized a !! "modified"
  = match a !! "modified" with
    | Some v =>
        match Tw5Mixin.string_to_date v with
        | Ok d => Some (PDate d)
        | Err _ => Some (PStr v)
        end
    | None => None
    end.
Proof.
  unfold normalized.
  destruct (Tw5Mixin.string_to_date <$> a !! "created") as [[?|?]|];
    [rewrite lookup_insert_ne by done | |];
    (destruct (a !! "modified") as [v|] eqn:Em;
     cbn [fmap option_fmap option_map];
     [destruct (Tw5Mixin.string_to_date v);
      [by rewrite lookup_insert_eq |] |]);
    (destruct (a !! "tags");
     [rewrite lookup_insert_ne by done |]); by rewrite lookup_fmap, Em.
Qed.

(** X8.  The [type_] field of an extracted record is the value of the
    attribute named [type_] when the block has one (it reaches [**kwargs]
    and overwrites the field), otherwise the value of the attribute [type],
    otherwise the default type. *)
Theorem extracted_type {helpers : Tw5Mixin.Helpers} buffer i t :
  yields (finditer buffer) !! i = Some t ->
  exists m, m ∈ Re.finditer RE_TIDDLER buffer
            /\ loop_body m = Yielded t
            /\ t !! "type_"
               = Some (PStr
                   match attributes m !! "type_", attributes m !! "type" with
                   | Some v, _ => v
                   | None, Some v => v
                   | None, None => "text/vnd.tiddlywiki"
                   end).
Proof.
  intros Ht%list_elem_of_lookup_2.
  destruct (yields_run _ _ Ht) as (m & Hin & Hm). exists m.
  split; [done |]. split; [done |].
  destruct (loop_body_record _ _ Hm) as [-> _].
  destruct (attributes m !! "type_") as [v|] eqn:E.
  - apply init_lookup_kwargs. rewrite kwargs_lookup.
    rewrite bool_decide_eq_false_2.
    + by rewrite normalized_lookup, E.
    + unfold keyword_params. rewrite !elem_of_cons, elem_of_nil.
      intros [?|[?|[?|[?|[?|[]]]]]]; done.
  - rewrite init_lookup_type.
    + rewrite normalized_lookup by done.
      by destruct (attributes m !! "type").
    + rewrite kwargs_lookup. case_bool_decide; [done |].
      by rewrite normalized_lookup, E.
Qed.

Lemma extracted_type_witness :
  let buffer :=
    block_text (created_ok ++ attribute "title" "page"
                ++ attribute "type" "text/x-markdown"
                ++ attribute "type_" "text/html") "body" in
  yields (finditer buffer) !! 0%nat = Some (first_tiddler buffer)
  /\ first_tiddler buffer !! "type_" = Some (PStr "text/html").
Proof.
  intros buffer.
  assert (H : yields (finditer buffer) !! 0%nat = Some (first_tiddler buffer))
    by (vm_compute; exact eq_refl).
  split; [exact H |].
  destruct (extracted_type _ _ _ H) as (m & Hin & Hm & ->).
  assert (Hm0 : m = nth_block buffer 0).
  { assert (Hms : Re.finditer RE_TIDDLER buffer = [nth_block buffer 0])
      by (vm_compute; exact eq_refl).
    rewrite Hms in Hin. by apply list_elem_of_singleton in Hin. }
  rewrite Hm0. vm_compute. exact eq_refl.
Defined.

(** A yielded record's block has no [modified] attribute on which the
    helper raises anything but [KeyError]. *)
Lemma loop_body_modified {helpers : Tw5Mixin.Helpers} m t v e :
  loop_body m = Yielded t ->
  attributes m !! "modified" = Some v ->
  Tw5Mixin.string_to_date v = Err e ->
  e = KeyError.
Proof.
  rewrite loop_body_cases. cbn zeta. intros Hy Hv He. rewrite Hv, He in Hy.
  by destruct e.
Qed.

(** X9.  The normalized fields of an extracted record hold what the
    helpers return: [created] is the timestamp parsed from the attribute
    [created]; [modified] is [None] when the block has no such attribute,
    the timestamp parsed from it when the helper returns one, and the
    text of the attribute, unparsed, when the helper raises (which for a
    yielded record can only be a [KeyError]); [tags] is the tag list of
    the attribute [tags]. *)
Theorem extracted_normalized_fields {helpers : Tw5Mixin.Helpers} buffer i t :
  yields (finditer buffer) !! i = Some t ->
  exists m, m ∈ Re.finditer RE_TIDDLER buffer
            /\ loop_body m = Yielded t
            /\ (exists v d, attributes m !! "created" = Some v
                            /\ Tw5Mixin.string_to_date v = Ok d
                            /\ t !! "created" = Some (PDate d))
            /\ match attributes m !! "modified" with
               | Some v =>
                   match Tw5Mixin.string_to_date v with
                   | Ok d => t !! "modified" = Some (PDate d)
                   | Err e => e = KeyError /\ t !! "modified" = Some (PStr v)
                   end
               | None => t !! "modified" = Some PNone
               end
            /\ match attributes m !! "tags" with
               | Some v => t !! "tags" = Some (PList (Tw5Mixin.get_tag_list v))
               | None => t !! "tags" = Some (PList [])
               end.
Proof.
  intros Ht%list_elem_of_lookup_2.
  destruct (yields_run _ _ Ht) as (m & Hin & Hm). exists m.
  split; [done |]. split; [done |].
  pose proof (loop_body_Yielded _ _ Hm) as Hs.
  pose proof (loop_body_modified m t) as Hmo.
  destruct (loop_body_record _ _ Hm) as [Ht' _].
  unfold satisfies_inclusion in Hs. apply andb_true_iff in Hs as [Hcr _].
  unfold parses in Hcr. rewrite Ht'.
  split; [| split].
  - destruct (attributes m !! "created") as [v|] eqn:E; [| done].
    destruct (Tw5Mixin.string_to_date v) as [d|] eqn:Ed; [| done].
    exists v, d. split; [done |]. split; [done |].
    rewrite init_lookup_created by (by rewrite kwargs_lookup).
    by rewrite (normalized_created _ _ _ E Ed).
  - rewrite init_lookup_modified by (by rewrite kwargs_lookup).
    rewrite normalized_modified.
    destruct (attributes m !! "modified") as [v|]; [| done].
    destruct (Tw5Mixin.string_to_date v) as [d|e] eqn:Ed; [done |].
    split; [| done]. by apply (Hmo v e Hm).
  - rewrite init_lookup_tags by (by rewrite kwargs_lookup).
    rewrite normalized_tags. by destruct (attributes m !! "tags").
Qed.

Lemma extracted_normalized_fields_witness :
  yields (finditer (sample ++ plain)) !! 1%nat = Some (first_tiddler plain)
  /\ exists m, m ∈ Re.finditer RE_TIDDLER (sample ++ plain)
               /\ loop_body m = Yielded (first_tiddler plain)
               /\ exists v d, attributes m !! "created" = Some v
                              /\ Tw5Mixin.string_to_date v = Ok d
                              /\ first_tiddler plain !! "created"
                                 = Some (PDate d).
Proof.
  assert (H : yields (finditer (sample ++ plain)) !! 1%nat
              = Some (first_tiddler plain))
    by (vm_compute; exact eq_refl).
  split; [exact H |].
  destruct (extracted_normalized_fields _ _ _ H) as (m & Hin & Hm & Hc & _).
  exists m. split; [exact Hin |]. split; [exact Hm |]. exact Hc.
Defined.

Lemma init_fields c ti ta cr mo ty (kw : dict) k :
  is_Some (init c ti ta cr mo ty kw !! k)
  <-> is_Some (kw !! k)
      \/ k ∈ ["content"; "title"; "tags"; "created"; "modified"; "type_"].
Proof.
  unfold init. rewrite lookup_union_is_Some.
  rewrite !lookup_insert_is_Some, lookup_empty.
  rewrite !elem_of_cons, elem_of_nil.
  split; (intros [H|H]; [by left | right]).
  - destruct H as [<-|[_ H]]; [auto 10 |].
    destruct H as [<-|[_ H]]; [auto 10 |].
    destruct H as [<-|[_ H]]; [auto 10 |].
    destruct H as [<-|[_ H]]; [auto 10 |].
    destruct H as [<-|[_ H]]; [auto 10 |].
    destruct H as [<-|[_ []%is_Some_None]]; auto 10.
  - destruct (decide ("type_" = k)); [by left | right; split; [done |]].
    destruct (decide ("modified" = k)); [by left | right; split; [done |]].
    destruct (decide ("created" = k)); [by left | right; split; [done |]].
    destruct (decide ("tags" = k)); [by left | right; split; [done |]].
    destruct (decide ("title" = k)); [by left | right; split; [done |]].
    destruct (decide ("content" = k)); [by left | right; split; [done |]].
    destruct H as [?|[?|[?|[?|[?|[?|[]]]]]]]; congruence.
Qed.

(** X10.  An extracted record has exactly the six fields that [__init__]
    sets and one field for every attribute of the block whose key is not a
    keyword parameter of the constructor. *)
Theorem extracted_fields {helpers : Tw5Mixin.Helpers} buffer i t :
  yields (finditer buffer) !! i = Some t ->
  exists m, m ∈ Re.finditer RE_TIDDLER buffer
            /\ loop_body m = Yielded t
            /\ forall k,
                 is_Some (t !! k)
                 <-> k ∈ ["content"; "title"; "tags"; "created"; "modified";
                          "type_"]
                     \/ (is_Some (attributes m !! k) /\ k ∉ keyword_params).
Proof.
  intros Ht%list_elem_of_lookup_2.
  destruct (yields_run _ _ Ht) as (m & Hin & Hm). exists m.
  split; [done |]. split; [done |]. intros k.
  destruct (loop_body_record _ _ Hm) as [-> _].
  rewrite init_fields, kwargs_lookup.
  case_bool_decide as Hk.
  - split.
    + intros [[]%is_Some_None|Hs]. by left.
    + intros [Hs|[_ Hs]]; [by right | done].
  - assert (Hne : k <> "tags" /\ k <> "modified" /\ k <> "created").
    { unfold keyword_params in Hk. rewrite !elem_of_cons, elem_of_nil in Hk.
      repeat split; intros ->; apply Hk; auto 10. }
    destruct Hne as (? & ? & ?). rewrite normalized_lookup by done.
    rewrite fmap_is_Some. split.
    + intros [Hs|Hs]; [by right | by left].
    + intros [Hs|[Hs _]]; [by right | by left].
Qed.

Lemma extracted_fields_witness :
  yields (finditer (sample ++ plain)) !! 1%nat = Some (first_tiddler plain)
  /\ is_Some (first_tiddler plain !! "type_").
Proof.
  assert (H : yields (finditer (sample ++ plain)) !! 1%nat
              = Some (first_tiddler plain))
    by (vm_compute; exact eq_refl).
  split; [exact H |].
  destruct (extracted_fields _ _ _ H) as (m & _ & _ & Hk).
  apply (proj2 (Hk "type_")). left.
  rewrite !elem_of_cons. auto 10.
Defined.

(** ** The first record *)

Lemma run_all_skipped {helpers : Tw5Mixin.Helpers} ms :
  (forall m, m ∈ ms -> loop_body m = Skipped) -> run ms = StopIteration.
Proof.
  induction ms as [|m ms IH]; intros H; cbn [run]; [done |].
  rewrite (H m) by apply list_elem_of_here.
  apply IH. intros m' Hin. apply H. by apply list_elem_of_further.
Qed.

(** X11.  [parse_from_string] is decided by the first block that is not
    skipped: when all the blocks before it are skipped, a block that
    yields a record makes [parse_from_string] return that record, whatever
    the blocks after it hold, and a block that raises makes it raise the
    same exception; when every block is skipped it returns [None]. *)
Theorem parse_from_string_first_block {helpers : Tw5Mixin.Helpers} buffer :
  (forall i m,
     Re.finditer RE_TIDDLER buffer !! i = Some m ->
     (forall j m', (j < i)%nat -> Re.finditer RE_TIDDLER buffer !! j = Some m' ->
                   loop_body m' = Skipped) ->
     match loop_body m with
     | Yielded t => parse_from_string buffer = Ok (Some t)
     | Raised e => parse_from_string buffer = Err e
     | Skipped => True
     end)
  /\ ((forall m, m ∈ Re.finditer RE_TIDDLER buffer -> loop_body m = Skipped) ->
      finditer buffer = StopIteration /\ parse_from_string buffer = Ok None).
Proof.
  unfold parse_from_string, finditer. split.
  - intros i m Hi Hbefore.
    rewrite <- (take_drop_middle _ _ _ Hi), run_app.
    rewrite run_all_skipped.
    + cbn [chain run]. by destruct (loop_body m).
    + intros m' [j Hj]%list_elem_of_lookup_1.
      apply lookup_take_Some in Hj as [Hj Hlt]. by apply (Hbefore j).
  - intros H. by rewrite (run_all_skipped _ H).
Qed.

Lemma parse_from_string_first_block_witness :
  let buffer := system ++ plain ++ bad_modified in
  Re.finditer RE_TIDDLER buffer !! 1%nat = Some (nth_block buffer 1)
  /\ loop_body (nth_block buffer 0) = Skipped
  /\ escapes (finditer buffer) = Some ValueError
  /\ match loop_body (nth_block buffer 1) with
     | Yielded t => parse_from_string buffer = Ok (Some t)
     | Raised e => parse_from_string buffer = Err e
     | Skipped => True
     end.
Proof.
  intros buffer.
  assert (H1 : Re.finditer RE_TIDDLER buffer !! 1%nat
               = Some (nth_block buffer 1)) by (vm_compute; exact eq_refl).
  assert (H0 : Re.finditer RE_TIDDLER buffer !! 0%nat
               = Some (nth_block buffer 0)) by (vm_compute; exact eq_refl).
  assert (Hs : loop_body (nth_block buffer 0) = Skipped)
    by (vm_compute; exact eq_refl).
  split; [exact H1 |]. split; [exact Hs |].
  split; [vm_compute; exact eq_refl |].
  apply (proj1 (parse_from_string_first_block buffer) 1%nat _ H1).
  intros j m' Hj Hm'. destruct j as [|j]; [| lia].
  rewrite H0 in Hm'. injection Hm' as <-. exact Hs.
Defined.

(** ** Printing and exporting a record *)

Import Methods.

Lemma io_bind_ret {A B : Type} (a : A) (f : A -> io B) : ret a ≫= f = f a.
Proof. unfold mbind, io_bind, ret. by destruct (f a). Qed.

Lemma io_bind_raise {A B : Type} (e : raised) (f : A -> io B) :
  raise e ≫= f = raise e.
Proof. done. Qed.

Lemma getattr_Some (t : Tiddler) k v : t !! k = Some v -> getattr t k = ret v.
Proof. unfold getattr. by intros ->. Qed.

Lemma split_last sep base ext :
  all_chars (fun c => negb (Ascii.eqb c sep)) ext = true ->
  Methods.split sep ext = [ext]
  /\ exists h l,
       Methods.split sep (base ++ String sep ext) = (h :: l ++ [ext])%list.
Proof.
  intros Hext.
  assert (He : Methods.split sep ext = [ext]).
  { induction ext as [|c ext IH]; [done |]. cbn [all_chars] in Hext.
    apply andb_true_iff in Hext as [Hc Hext]. cbn [Methods.split].
    apply negb_true_iff in Hc. rewrite Hc. by rewrite (IH Hext). }
  split; [exact He |].
  induction base as [|c base (h & l & IH)]; cbn [String.append Methods.split].
  - rewrite Ascii.eqb_refl, He. by exists EmptyString, [].
  - rewrite IH. destruct (Ascii.eqb c sep).
    + by exists EmptyString, (h :: l).
    + by exists (String c h), l.
Qed.

(** X12.  When no format is given, [export_to_file] takes as format what
    follows the last dot of the path; a path without a dot is taken whole
    as the format. *)
Theorem format_from_path base ext :
  all_chars not_dot ext = true ->
  export_to_file_format (base ++ "." ++ ext) None = ext
  /\ export_to_file_format ext None = ext.
Proof.
  intros Hext. unfold export_to_file_format, last_item.
  destruct (split_last "." base ext Hext) as (-> & h & l & Hs). split; [| done].
  change ("." ++ ext) with (String "." ext). rewrite Hs.
  change (h :: l ++ [ext])%list with ((h :: l) ++ [ext])%list.
  apply last_last.
Qed.

Lemma format_from_path_witness :
  all_chars not_dot "pdf" = true
  /\ export_to_file_format ("notes.v2" ++ "." ++ "pdf") None = "pdf"
  /\ export_to_file_format "pdf" None = "pdf".
Proof.
  split; [reflexivity |]. apply (format_from_path "notes.v2" "pdf"). reflexivity.
Defined.

(** The fields of a yielded record that the methods read. *)
Lemma loop_body_fields {helpers : Tw5Mixin.Helpers} m t :
  loop_body m = Yielded t ->
  (exists title, t !! "title" = Some (PStr title))
  /\ is_Some (t !! "tags") /\ is_Some (t !! "created")
  /\ is_Some (t !! "modified") /\ is_Some (t !! "content").
Proof.
  intros H. destruct (loop_body_title _ _ H) as [(title & _ & Ht & _) _].
  split; [by exists title |].
  destruct (loop_body_record _ _ H) as [-> _].
  repeat split; apply init_fields; right; rewrite !elem_of_cons; auto 10.
Qed.

(** X13.  Every record that [finditer] yields can be printed: [__str__]
    returns, without writing anything, a text that begins with the title
    of the record followed by a new line and the tags line. *)
Theorem extracted_record_prints {helpers : Tw5Mixin.Helpers} (str reprlib_repr : pyval -> string)
    buffer i t :
  yields (finditer buffer) !! i = Some t ->
  exists title rest,
    t !! "title" = Some (PStr title)
    /\ __str__ str reprlib_repr t
       = ([], Returns (title ++ nl ++ tab ++ "tags: " ++ rest)).
Proof.
  intros Ht%list_elem_of_lookup_2.
  destruct (yields_run _ _ Ht) as (m & _ & Hm).
  destruct (loop_body_fields _ _ Hm)
    as ((title & Hti) & [ta Hta] & [cr Hcr] & [mo Hmo] & [c Hc]).
  exists title,
    (str ta ++ nl ++ tab ++ "created: " ++ str cr ++ ", "
     ++ tab ++ "modified: " ++ str mo ++ nl ++ tab ++ reprlib_repr c).
  split; [exact Hti |]. unfold __str__.
  rewrite (getattr_Some _ _ _ Hti), io_bind_ret. unfold add_str.
  rewrite io_bind_ret, (getattr_Some _ _ _ Hta), io_bind_ret.
  rewrite (getattr_Some _ _ _ Hcr), io_bind_ret.
  rewrite (getattr_Some _ _ _ Hmo), io_bind_ret.
  rewrite (getattr_Some _ _ _ Hc), io_bind_ret.
  unfold ret. by rewrite !str_app_assoc.
Qed.

Lemma extracted_record_prints_witness :
  yields (finditer (sample ++ plain)) !! 1%nat = Some (first_tiddler plain)
  /\ exists title rest,
       first_tiddler plain !! "title" = Some (PStr title)
       /\ __str__ (fun _ => "str") (fun _ => "repr") (first_tiddler plain)
          = ([], Returns (title ++ nl ++ tab ++ "tags: " ++ rest)).
Proof.
  assert (H : yields (finditer (sample ++ plain)) !! 1%nat
              = Some (first_tiddler plain))
    by (vm_compute; exact eq_refl).
  split; [exact H |].
  exact (extracted_record_prints (fun _ => "str") (fun _ => "repr") _ _ _ H).
Defined.

(** X14.  A record constructed without a title, or with a title that is
    not a [str], can be neither printed nor exported: [__str__] and
    [export] raise [TypeError] at the first concatenation, before anything
    is converted or written. *)
Theorem untitled_record_raises (str reprlib_repr : pyval -> string)
    (convert_tw5_to_md : pyval -> bool -> option string)
    (convert_text : pyval -> string -> string -> option string)
    content attr t format latex_gif :
  new content attr = Ok t ->
  (forall s, attr !! "title" <> Some (PStr s)) ->
  __str__ str reprlib_repr t = ([], Raises (Builtin TypeError))
  /\ export str convert_tw5_to_md convert_text t format latex_gif
     = ([], Raises (Builtin TypeError)).
Proof.
  intros Hnew Hti. unfold new in Hnew.
  destruct (attr !! "self"); [done |]. destruct (attr !! "content"); [done |].
  assert (H : exists v, t !! "title" = Some v /\ forall s, v <> PStr s).
  { exists (default PNone (attr !! "title")). split.
    - assert (Ht : t = init content (default PNone (attr !! "title"))
                         (default PNone (attr !! "tags"))
                         (default PNone (attr !! "created"))
                         (default PNone (attr !! "modified"))
                         (default (PStr "text/vnd.tiddlywiki")
                                  (attr !! "type"))
                         (foldr delete attr keyword_params))
        by congruence.
      rewrite Ht. apply init_lookup_title. by rewrite kwargs_lookup.
    - intros s. destruct (attr !! "title") as [v|] eqn:E; cbn; [| done].
      intros ->. by apply (Hti s). }
  destruct H as (v & Hv & Hs). unfold __str__, export.
  rewrite (getattr_Some _ _ _ Hv), !io_bind_ret.
  destruct v as [|s| |]; [done | by destruct (Hs s) | done | done].
Qed.

Lemma untitled_record_raises_witness :
  exists t,
    new (PStr "text") ∅ = Ok t
    /\ __str__ (fun _ => "str") (fun _ => "repr") t
       = ([], Raises (Builtin TypeError)).
Proof.
  eexists. split; [reflexivity |].
  apply (untitled_record_raises (fun _ => "str") (fun _ => "repr")
           (fun _ _ => None) (fun _ _ _ => None) (PStr "text") ∅ _ "md" false).
  - reflexivity.
  - intros s H. rewrite lookup_empty in H. discriminate H.
Defined.

(** X15.  [export] on an extracted record: when the record has an
    attribute named [export_content], it shadows the method and the call
    raises [TypeError].  Otherwise [export] lets through what
    [export_content] raises, which it calls outside its [try], and
    nothing else: when [export_content] returns, the heading joined to
    its result is converted once more, and a failure of that conversion
    is reported on the standard output and turned into the result
    [None]. *)
Theorem export_contains_failures {helpers : Tw5Mixin.Helpers}
    (str : pyval -> string)
    (convert_tw5_to_md : pyval -> bool -> option string)
    (convert_text : pyval -> string -> string -> option string)
    buffer i t format latex_gif :
  yields (finditer buffer) !! i = Some t ->
  exists title rest,
    t !! "title" = Some (PStr title)
    /\ match t !! "export_content" with
       | Some _ =>
           export str convert_tw5_to_md convert_text t format latex_gif
           = ([], Raises (Builtin TypeError))
       | None =>
           match export_content convert_tw5_to_md convert_text t "md"
                   latex_gif with
           | (out, Raises e) =>
               export str convert_tw5_to_md convert_text t format latex_gif
               = (out, Raises e)
           | (out, Returns body) =>
               match convert_text (PStr ("# " ++ title ++ nl ++ rest ++ body))
                       format "md" with
               | Some result =>
                   export str convert_tw5_to_md convert_text t format
                     latex_gif
                   = (out, Returns (Some result))
               | None =>
                   export str convert_tw5_to_md convert_text t format
                     latex_gif
                   = ((out ++ ["error occured"])%list, Returns None)
               end
           end
       end.
Proof.
  intros Ht%list_elem_of_lookup_2.
  destruct (yields_run _ _ Ht) as (m & _ & Hm).
  destruct (loop_body_fields _ _ Hm)
    as ((title & Hti) & [ta Hta] & [cr Hcr] & [mo Hmo] & _).
  exists title,
    ("**created**: " ++ str cr ++ ",  "
     ++ "**last modified**: " ++ str mo ++ nl ++ nl
     ++ "**keywords**: " ++ str ta ++ nl ++ nl ++ "---" ++ nl ++ nl).
  split; [exact Hti |]. unfold export.
  rewrite (getattr_Some _ _ _ Hti), io_bind_ret. unfold str_add.
  rewrite io_bind_ret, (getattr_Some _ _ _ Hcr), io_bind_ret.
  rewrite (getattr_Some _ _ _ Hmo), io_bind_ret.
  rewrite (getattr_Some _ _ _ Hta), io_bind_ret.
  unfold call_method. destruct (t !! "export_content"); [done |].
  destruct (export_content _ _ t "md" latex_gif) as [out [body|e]];
    [| done].
  unfold mbind, io_bind. rewrite !str_app_assoc.
  destruct (convert_text _ format "md"); cbn; [by rewrite app_nil_r | done].
Qed.

Lemma export_contains_failures_witness :
  let str := fun _ : pyval => "str" in
  let convert_tw5_to_md := fun (_ : pyval) (_ : bool) => Some "body" in
  let convert_text :=
    fun (source : pyval) (_ _ : string) =>
      if eq_str source "body" then Some "body" else None in
  (yields (finditer (sample ++ plain)) !! 1%nat = Some (first_tiddler plain)
   /\ export_content convert_tw5_to_md convert_text (first_tiddler plain)
        "md" false = ([], Returns "body")
   /\ export str convert_tw5_to_md convert_text (first_tiddler plain)
        "html" false = (["error occured"], Returns None))
  /\ (yields (finditer shadowing) !! 0%nat = Some (first_tiddler shadowing)
      /\ export str convert_tw5_to_md convert_text (first_tiddler shadowing)
           "html" false = ([], Raises (Builtin TypeError))).
Proof.
  intros str convert_tw5_to_md convert_text. split.
  - assert (H : yields (finditer (sample ++ plain)) !! 1%nat
                = Some (first_tiddler plain))
      by (vm_compute; exact eq_refl).
    assert (Hc : export_content convert_tw5_to_md convert_text
                   (first_tiddler plain) "md" false = ([], Returns "body"))
      by (vm_compute; exact eq_refl).
    assert (Hn : first_tiddler plain !! "export_content" = None)
      by (vm_compute; exact eq_refl).
    split; [exact H |]. split; [exact Hc |].
    destruct (export_contains_failures str convert_tw5_to_md convert_text
                _ _ _ "html" false H) as (title & rest & _ & He).
    rewrite Hn, Hc in He. exact He.
  - assert (H : yields (finditer shadowing) !! 0%nat
                = Some (first_tiddler shadowing))
      by (vm_compute; exact eq_refl).
    assert (Hn : first_tiddler shadowing !! "export_content"
                 = Some (PStr "x"))
      by (vm_compute; exact eq_refl).
    split; [exact H |].
    destruct (export_contains_failures str convert_tw5_to_md convert_text
                _ _ _ "html" false H) as (title & rest & _ & He).
    rewrite Hn in He. exact He.
Defined.

Lemma format_of_extension base ext :
  all_chars not_dot ext = true ->
  export_to_file_format (base ++ "." ++ ext) None = ext.
Proof.
  intros Hext. unfold export_to_file_format, last_item.
  destruct (split_last "." base ext Hext) as (_ & h & l & Hs).
  change ("." ++ ext) with (String "." ext). rewrite Hs.
  change (h :: l ++ [ext])%list with ((h :: l) ++ [ext])%list.
  apply last_last.
Qed.

(** X16.  [export_to_file] calls [self.export()]: on a record with an
    attribute named [export] the call raises [TypeError].  Otherwise,
    when the conversion that ends [export] has failed, so that [export]
    returns [None], [export_to_file] with a path that ends in [.pdf]
    raises [AttributeError], since [None] has no [encode]; with any other
    extension it hands [None] to the conversion that writes the file. *)
Theorem export_to_file_after_failure (str : pyval -> string)
    (convert_tw5_to_md : pyval -> bool -> option string)
    (convert_text : pyval -> string -> string -> option string)
    (latin_1 : string -> string) t base out :
  (is_Some (t !! "export") ->
   forall path format,
     export_to_file str convert_tw5_to_md convert_text latin_1 t path format
     = ([], Raises (Builtin TypeError)))
  /\ (t !! "export" = None ->
      export str convert_tw5_to_md convert_text t "md" false
      = (out, Returns None) ->
      export_to_file str convert_tw5_to_md convert_text latin_1 t
        (base ++ "." ++ "pdf") None
      = (out, Raises AttributeError)
      /\ forall ext,
           all_chars not_dot ext = true -> ext <> "pdf" ->
           export_to_file str convert_tw5_to_md convert_text latin_1 t
             (base ++ "." ++ ext) None
           = (out, Returns {| source := PNone; to := ext;
                              outputfile := base ++ "." ++ ext |})).
Proof.
  unfold export_to_file, call_method. split.
  - by intros [v ->] path format.
  - intros -> He. split.
    + rewrite (format_of_extension base "pdf") by reflexivity. rewrite He.
      unfold mbind, io_bind. cbn. by rewrite app_nil_r.
    + intros ext Hext Hne. rewrite (format_of_extension base ext Hext), He.
      apply String.eqb_neq in Hne. rewrite Hne.
      unfold mbind, io_bind. cbn. by rewrite app_nil_r.
Qed.

Lemma export_to_file_after_failure_witness :
  let str := fun _ : pyval => "str" in
  let convert_tw5_to_md := fun (_ : pyval) (_ : bool) => Some "body" in
  let convert_text :=
    fun (source : pyval) (_ _ : string) =>
      if eq_str source "body" then Some "body" else None in
  (first_tiddler plain !! "export" = None
   /\ export str convert_tw5_to_md convert_text (first_tiddler plain)
        "md" false = (["error occured"], Returns None)
   /\ export_to_file str convert_tw5_to_md convert_text (fun s => s)
        (first_tiddler plain) ("notes" ++ "." ++ "pdf") None
      = (["error occured"], Raises AttributeError))
  /\ (is_Some (first_tiddler shadowing !! "export")
      /\ export_to_file str convert_tw5_to_md convert_text (fun s => s)
           (first_tiddler shadowing) "notes.pdf" None
         = ([], Raises (Builtin TypeError))).
Proof.
  intros str convert_tw5_to_md convert_text. split.
  - assert (Hn : first_tiddler plain !! "export" = None)
      by (vm_compute; exact eq_refl).
    assert (H : export str convert_tw5_to_md convert_text
                  (first_tiddler plain) "md" false
                = (["error occured"], Returns None))
      by (vm_compute; exact eq_refl).
    split; [exact Hn |]. split; [exact H |].
    exact (proj1 (proj2 (export_to_file_after_failure str convert_tw5_to_md
                           convert_text (fun s => s) _ "notes" _) Hn H)).
  - assert (Hs : is_Some (first_tiddler shadowing !! "export"))
      by (exists (PStr "y"); vm_compute; exact eq_refl).
    split; [exact Hs |].
    exact (proj1 (export_to_file_after_failure str convert_tw5_to_md
                    convert_text (fun s => s) _ "" []) Hs _ _).
Defined.

(** The [type_] of a yielded record is a [str]. *)
Lemma loop_body_type {helpers : Tw5Mixin.Helpers} m t :
  loop_body m = Yielded t -> exists ty, t !! "type_" = Some (PStr ty).
Proof.
  intros Hm. destruct (loop_body_record _ _ Hm) as [-> _].
  destruct (attributes m !! "type_") as [v|] eqn:E.
  - exists v. apply init_lookup_kwargs. rewrite kwargs_lookup.
    rewrite bool_decide_eq_false_2.
    + by rewrite normalized_lookup, E.
    + unfold keyword_params. rewrite !elem_of_cons, elem_of_nil.
      intros [?|[?|[?|[?|[?|[]]]]]]; done.
  - rewrite init_lookup_type.
    + rewrite normalized_lookup by done.
      destruct (attributes m !! "type"); by eexists.
    + rewrite kwargs_lookup. case_bool_decide; [done |].
      by rewrite normalized_lookup, E.
Qed.

(** X17.  [export_content] on an extracted record raises nothing but the
    exception of a converter, and writes to the standard output only for
    a record of type [text/x-markdown], for which it writes the one line
    that names the class [str]. *)
Theorem export_content_of_extracted {helpers : Tw5Mixin.Helpers}
    (convert_tw5_to_md : pyval -> bool -> option string)
    (convert_text : pyval -> string -> string -> option string)
    buffer i t format latex_gif :
  yields (finditer buffer) !! i = Some t ->
  exists ty,
    t !! "type_" = Some (PStr ty)
    /\ forall out r,
         export_content convert_tw5_to_md convert_text t format latex_gif
         = (out, r) ->
         (r = Raises External \/ exists md, r = Returns md)
         /\ out = if String.eqb ty "text/x-markdown"
                  then ["<class 'str'>"] else [].
Proof.
  intros Ht%list_elem_of_lookup_2.
  destruct (yields_run _ _ Ht) as (m & _ & Hm).
  destruct (loop_body_type _ _ Hm) as [ty Hty].
  destruct (loop_body_content_tags _ _ Hm) as [Hc _].
  exists ty. split; [exact Hty |]. intros out r. unfold export_content.
  rewrite (getattr_Some _ _ _ Hty), io_bind_ret. unfold eq_str.
  destruct (String.eqb_spec ty "text/vnd.tiddlywiki") as [->|_].
  { rewrite (getattr_Some _ _ _ Hc), io_bind_ret.
    destruct (convert_tw5_to_md _ latex_gif) as [md|]; cbn.
    - destruct (convert_text (PStr md) format "md"); cbn;
        intros [= <- <-]; split; eauto.
    - intros [= <- <-]; split; eauto. }
  destruct (String.eqb_spec ty "text/html") as [->|_].
  { rewrite (getattr_Some _ _ _ Hc), io_bind_ret.
    destruct (convert_text _ "md" "html") as [md|]; cbn.
    - destruct (convert_text (PStr md) format "md"); cbn;
        intros [= <- <-]; split; eauto.
    - intros [= <- <-]; split; eauto. }
  destruct (String.eqb ty "text/x-markdown").
  - rewrite (getattr_Some _ _ _ Hc), io_bind_ret.
    unfold mbind, io_bind, print, ret, external. cbn.
    destruct (convert_text _ format "md"); cbn;
      intros [= <- <-]; split; eauto.
  - rewrite (getattr_Some _ _ _ Hc), io_bind_ret.
    destruct (convert_text _ format "md"); cbn;
      intros [= <- <-]; split; eauto.
Qed.

Lemma export_content_of_extracted_witness :
  let convert_tw5_to_md := fun (_ : pyval) (_ : bool) => Some "body" in
  let convert_text := fun (_ : pyval) (_ _ : string) => @None string in
  yields (finditer (sample ++ plain)) !! 1%nat = Some (first_tiddler plain)
  /\ exists ty,
       first_tiddler plain !! "type_" = Some (PStr ty)
       /\ forall out r,
            export_content convert_tw5_to_md convert_text
              (first_tiddler plain) "html" false = (out, r) ->
            (r = Raises External \/ exists md, r = Returns md)
            /\ out = if String.eqb ty "text/x-markdown"
                     then ["<class 'str'>"] else [].
Proof.
  intros convert_tw5_to_md convert_text.
  assert (H : yields (finditer (sample ++ plain)) !! 1%nat
              = Some (first_tiddler plain))
    by (vm_compute; exact eq_refl).
  split; [exact H |].
  exact (export_content_of_extracted convert_tw5_to_md convert_text
           _ _ _ "html" false H).
Defined.

(** ** An opening tag that is not closed before the block *)

Lemma strip_prefix_None_app l t : forall a,
  no_suffix_starts l t ->
  strip_prefix l a = None -> strip_prefix l (a ++ t) = None.
Proof.
  induction l as [|x l IH]; intros a; [done |].
  intros [Ht Hl]. destruct a as [|y a]; [intros _; exact Ht |].
  cbn [strip_prefix String.append]. destruct (Ascii.eqb x y); [| done].
  by apply IH.
Qed.

Lemma find_first_past_div junk s :
  find_first pre_open junk = None ->
  find_first pre_open (junk ++ div_open ++ s)
  = match find_first pre_open s with
    | Some (a, r) => Some (junk ++ div_open ++ a, r)
    | None => None
    end.
Proof.
  induction junk as [|x junk IH].
  - intros _. unfold div_open, pre_open, nl.
    cbn [String.append find_first strip_prefix Ascii.eqb Bool.eqb].
    by destruct (find_first _ s) as [[a r]|].
  - cbn [find_first String.append].
    destruct (strip_prefix pre_open (String x junk)) eqn:E; [done |].
    destruct (find_first pre_open junk) as [[a r]|] eqn:F; [done |].
    intros _.
    change (String x (junk ++ div_open ++ s))
      with (String x junk ++ div_open ++ s).
    rewrite (strip_prefix_None_app pre_open (div_open ++ s) _); [| | exact E].
    + cbn [String.append]. rewrite (IH eq_refl).
      by destruct (find_first pre_open s) as [[a r]|].
    + unfold div_open, pre_open, nl. cbn. tauto.
Qed.

(** X18.  An opening [<div] that is not followed by the marker of the
    content before a record block begins is not skipped: the match starts
    at it, and the text up to the block together with the opening tag of
    the block becomes the options string of the one match. *)
Theorem unclosed_div_absorbed junk b rest :
  find_first pre_open junk = None ->
  is_block b = true ->
  exists o c,
    b = block_text o c
    /\ Re.finditer RE_TIDDLER (div_open ++ junk ++ b ++ rest)
       = block_match 0 (junk ++ div_open ++ o) c
         :: map (shift (4 + String.length junk + String.length b))
              (Re.finditer RE_TIDDLER rest).
Proof.
  intros Hj Hb. destruct (is_block_split _ Hb) as (o & c & E & ->).
  exists o, c. split; [done |].
  assert (E' : split_block (block_text (junk ++ div_open ++ o) c)
               = Some (junk ++ div_open ++ o, c, EmptyString)).
  { revert E. unfold split_block, block_text. rewrite !strip_prefix_app.
    rewrite !str_app_assoc, (find_first_past_div junk _ Hj).
    destruct (find_first pre_open (o ++ pre_open ++ c ++ block_close))
      as [[o' s2]|]; [| intros [=]].
    destruct (find_first block_close s2) as [[c' s3]|]; [| intros [=]].
    by intros [= -> -> ->]. }
  pose proof (finditer_block_prefix _ _ rest E') as H.
  replace (block_text (junk ++ div_open ++ o) c ++ rest)
    with (div_open ++ junk ++ block_text o c ++ rest) in H
    by (unfold block_text; by rewrite !str_app_assoc).
  rewrite H. f_equal. f_equal. f_equal.
  unfold block_text. rewrite !str_length_app. cbn [String.length div_open]. lia.
Qed.

Lemma unclosed_div_absorbed_witness :
  let junk := " id=" ++ dq ++ "storeArea" ++ dq ++ ">" ++ nl in
  find_first pre_open junk = None
  /\ is_block plain = true
  /\ exists o c,
       plain = block_text o c
       /\ Re.finditer RE_TIDDLER (div_open ++ junk ++ plain ++ sample)
          = block_match 0 (junk ++ div_open ++ o) c
            :: map (shift (4 + String.length junk + String.length plain))
                 (Re.finditer RE_TIDDLER sample).
Proof.
  intros junk.
  assert (Hj : find_first pre_open junk = None) by (vm_compute; exact eq_refl).
  assert (Hb : is_block plain = true) by (vm_compute; exact eq_refl).
  split; [exact Hj |]. split; [exact Hb |].
  exact (unclosed_div_absorbed junk plain sample Hj Hb).
Defined.

(** ** Adjacent blocks *)









(** ** A timestamp that the helper does not parse *)

(** X19.  What [finditer] does when [string_to_date] raises depends on
    the exception only through the one handler it has, [except KeyError].
    On [modified], an exception other than [KeyError] escapes the loop
    body, and so the scan.  On [created], no record is yielded for the
    block, and when the normalization of [modified] lets nothing through,
    the block is skipped if the exception is a [KeyError] and the
    exception escapes otherwise. *)
Theorem parse_failure_paths {helpers : Tw5Mixin.Helpers} buffer i m v e :
  Re.finditer RE_TIDDLER buffer !! i = Some m ->
  Tw5Mixin.string_to_date v = Err e ->
  (attributes m !! "modified" = Some v -> e <> KeyError ->
   loop_body m = Raised e
   /\ exists e', escapes (finditer buffer) = Some e')
  /\ (attributes m !! "created" = Some v ->
      (forall t, loop_body m <> Yielded t)
      /\ ((forall w e', attributes m !! "modified" = Some w ->
                        Tw5Mixin.string_to_date w = Err e' ->
                        e' = KeyError) ->
          loop_body m = match e with
                        | KeyError => Skipped
                        | _ => Raised e
                        end)).
Proof.
  intros Hi He. split.
  - intros Hm Hne.
    assert (Hb : loop_body m = Raised e).
    { rewrite loop_body_cases. cbn zeta. rewrite Hm, He.
      by destruct e. }
    split; [done |]. by apply (proj1 (finditer_raised buffer i m e Hi Hb)).
  - intros Hc. split.
    + intros t Hy. pose proof (loop_body_Yielded _ _ Hy) as Hs.
      unfold satisfies_inclusion, parses in Hs. by rewrite Hc, He in Hs.
    + intros Hmo. rewrite loop_body_cases. cbn zeta. rewrite Hc, He.
      destruct (attributes m !! "modified") as [w|]; [| by destruct e].
      destruct (Tw5Mixin.string_to_date w) as [d|e'] eqn:Ew;
        [by destruct e |].
      rewrite (Hmo w e' eq_refl Ew). by destruct e.
Qed.

Lemma parse_failure_paths_witness :
  (Re.finditer RE_TIDDLER (bad_modified ++ plain) !! 0%nat
   = Some (nth_block (bad_modified ++ plain) 0)
   /\ Tw5Mixin.string_to_date "soon" = Err ValueError
   /\ loop_body (nth_block (bad_modified ++ plain) 0) = Raised ValueError)
  /\ (@Tw5Mixin.string_to_date Tw5Mixin.keyerror_helpers "yesterday"
      = Err KeyError
      /\ @loop_body Tw5Mixin.keyerror_helpers
           (nth_block (bad_created ++ plain) 0) = Skipped).
Proof.
  split.
  - assert (Hi : Re.finditer RE_TIDDLER (bad_modified ++ plain) !! 0%nat
                 = Some (nth_block (bad_modified ++ plain) 0))
      by (vm_compute; exact eq_refl).
    assert (He : Tw5Mixin.string_to_date "soon" = Err ValueError)
      by (vm_compute; exact eq_refl).
    split; [exact Hi |]. split; [exact He |].
    apply (proj1 (parse_failure_paths _ _ _ _ _ Hi He)).
    + vm_compute. exact eq_refl.
    + discriminate.
  - assert (Hi : Re.finditer RE_TIDDLER (bad_created ++ plain) !! 0%nat
                 = Some (nth_block (bad_created ++ plain) 0))
      by (vm_compute; exact eq_refl).
    assert (He : @Tw5Mixin.string_to_date Tw5Mixin.keyerror_helpers
                   "yesterday" = Err KeyError)
      by (vm_compute; exact eq_refl).
    split; [exact He |].
    assert (Hc : attributes (nth_block (bad_created ++ plain) 0) !! "created"
                 = Some "yesterday")
      by (vm_compute; exact eq_refl).
    apply (proj2 (proj2 (@parse_failure_paths Tw5Mixin.keyerror_helpers
                           _ _ _ _ _ Hi He) Hc)).
    intros w e' Hw. exfalso. revert Hw. vm_compute. discriminate.
Defined.
